(** * OWScript transpiler: a shallow embedding of [OWScript/Transpiler.py]

    The transpiler is a recursive visitor over the syntax tree.  It threads
    mutable state (two slot counters, the indentation level, the lines of the
    rule block being assembled), mutates lexically chained scopes, and uses
    Python exceptions both for user errors and for unwinding an inlined
    function body at a [Return].  The embedding keeps this shape: a state and
    exception monad, one definition per [visitX] method, and a dispatcher
    [visit] that ties the knot with fuel (inlining is not structurally
    recursive).

    Modules of the repository that the transpiler imports but that are not
    part of the verified sources ([AST], [Errors], [Workshop]) appear as
    section parameters or as definitions marked "Modelled from the spec". *)

From Stdlib Require Import String Ascii ZArith QArith List Lia Bool DecimalString.
From stdpp Require Import base option gmap strings.

Import ListNotations.
Set Warnings "-register-all".
Local Open Scope string_scope.
Local Open Scope Z_scope.

(** ** Python primitives *)

(** Built-in exception classes that the transpiler's [try]/[except] blocks
    distinguish. *)
Inductive pyexc : Type :=
| ValueError | TypeError | AttributeError | IndexError | KeyError
| ZeroDivisionError | UnboundLocalError.

(** Result of a Python primitive that either returns or raises. *)
Inductive pyres (A : Type) : Type :=
| Val (a : A)
| Exc (e : pyexc).
Arguments Val {A} a.
Arguments Exc {A} e.

(** A text is a string of 8-bit characters.  The case conversions, the
    white space test and the digit test below are those of Python on
    ASCII text, which is what the transpiler's own templates and the
    instruction names consist of; Python's treatment of letters, digits and
    spaces outside ASCII is not modelled, and a character above 127 is
    neither a letter, a digit nor a space here. *)
Module Py.

Definition code (c : ascii) : N := N_of_ascii c.

Definition is_upper (c : ascii) : bool := ((65 <=? code c) && (code c <=? 90))%N.
Definition is_lower (c : ascii) : bool := ((97 <=? code c) && (code c <=? 122))%N.
Definition is_alpha (c : ascii) : bool := is_upper c || is_lower c.
Definition is_digit (c : ascii) : bool := ((48 <=? code c) && (code c <=? 57))%N.

(** [str.isspace] on the ASCII range; also what [\s] matches. *)
Definition is_space (c : ascii) : bool :=
  ((9 <=? code c) && (code c <=? 13) || (28 <=? code c) && (code c <=? 32))%N.

Definition to_upper (c : ascii) : ascii :=
  if is_lower c then ascii_of_N (code c - 32) else c.
Definition to_lower (c : ascii) : ascii :=
  if is_upper c then ascii_of_N (code c + 32) else c.

(** [s.upper()], [s.lower()] (ASCII). *)
Fixpoint upper (s : string) : string :=
  match s with
  | EmptyString => EmptyString
  | String c r => String (to_upper c) (upper r)
  end.

Fixpoint lower (s : string) : string :=
  match s with
  | EmptyString => EmptyString
  | String c r => String (to_lower c) (lower r)
  end.

(** [s.title()]: a letter that follows a letter is lowered, any other
    letter is raised. *)
Fixpoint title_from (after_letter : bool) (s : string) : string :=
  match s with
  | EmptyString => EmptyString
  | String c r =>
      if is_alpha c
      then String (if after_letter then to_lower c else to_upper c) (title_from true r)
      else String c (title_from false r)
  end.
Definition title (s : string) : string := title_from false s.

(** [' ' * n] and friends; a negative count gives the empty string. *)
Fixpoint repeat_nat (s : string) (n : nat) : string :=
  match n with
  | O => EmptyString
  | S k => s ++ repeat_nat s k
  end.
Definition repeat (s : string) (n : Z) : string := repeat_nat s (Z.to_nat n).

(** [sep.join(xs)]. *)
Definition join (sep : string) (xs : list string) : string := String.concat sep xs.

(** [s.startswith(p)]. *)
Definition startswith (s p : string) : bool := String.prefix p s.

(** [s.endswith(p)]: some tail of [s] is [p]. *)
Fixpoint endswith (s p : string) : bool :=
  String.eqb s p ||
  match s with
  | String _ r => endswith r p
  | EmptyString => false
  end.

(** [s[n:]] for a non-negative [n]. *)
Fixpoint drop (n : nat) (s : string) : string :=
  match n, s with
  | O, _ => s
  | S k, EmptyString => EmptyString
  | S k, String _ r => drop k r
  end.

Definition mem (c : ascii) (chars : string) : bool :=
  existsb (Ascii.eqb c) (list_ascii_of_string chars).

(** [s.rstrip(chars)]: drop trailing characters that belong to [chars]. *)
Fixpoint rstrip (chars : string) (s : string) : string :=
  match s with
  | EmptyString => EmptyString
  | String c r =>
      match rstrip chars r with
      | EmptyString => if mem c chars then EmptyString else String c EmptyString
      | r' => String c r'
      end
  end.

(** [s.count(sub)] for a non-empty [sub]: occurrences are found left to
    right and do not overlap.  [skip] is the number of characters still
    covered by the occurrence found last. *)
Fixpoint count_from (sub : string) (skip : nat) (s : string) : nat :=
  match s with
  | EmptyString => O
  | String c r =>
      match skip with
      | S k => count_from sub k r
      | O => if String.prefix sub s
             then S (count_from sub (Nat.pred (String.length sub)) r)
             else count_from sub O r
      end
  end.
Definition count (s sub : string) : nat := count_from sub O s.

(** [s.split(sep)] for a non-empty [sep]; [cur] is the piece being read. *)
Fixpoint split_from (sep : string) (skip : nat) (cur : string) (s : string) : list string :=
  match s with
  | EmptyString => [cur]
  | String c r =>
      match skip with
      | S k => split_from sep k cur r
      | O => if String.prefix sep s
             then cur :: split_from sep (Nat.pred (String.length sep)) EmptyString r
             else split_from sep O (cur ++ String c EmptyString) r
      end
  end.
Definition split (s sep : string) : list string := split_from sep O EmptyString s.

(** [re.sub(pat, '', s)] for a literal, non-empty [pat]. *)
Fixpoint remove_from (pat : string) (skip : nat) (s : string) : string :=
  match s with
  | EmptyString => EmptyString
  | String c r =>
      match skip with
      | S k => remove_from pat k r
      | O => if String.prefix pat s
             then remove_from pat (Nat.pred (String.length pat)) r
             else String c (remove_from pat O r)
      end
  end.
Definition re_sub_remove (pat s : string) : string := remove_from pat O s.

(** [re.match(r'\s*' + lit, s)] for a literal [lit] that does not start
    with white space: is there a match? *)
Fixpoint re_match_ws (lit : string) (s : string) : bool :=
  match s with
  | EmptyString => String.prefix lit s
  | String c r => if is_space c then re_match_ws lit r else String.prefix lit s
  end.

(** [str(z)] for an integer. *)
Definition str_of_Z (z : Z) : string := NilZero.string_of_int (Z.to_int z).
Definition str_of_nat (n : nat) : string := str_of_Z (Z.of_nat n).

(** [int(s)]: optional surrounding white space, an optional sign, decimal
    digits with single underscores allowed between digits. *)
Fixpoint lstrip_ws (s : string) : string :=
  match s with
  | EmptyString => EmptyString
  | String c r => if is_space c then lstrip_ws r else s
  end.

Fixpoint rstrip_ws (s : string) : string :=
  match s with
  | EmptyString => EmptyString
  | String c r =>
      match rstrip_ws r with
      | EmptyString => if is_space c then EmptyString else String c EmptyString
      | r' => String c r'
      end
  end.

Definition digit_val (c : ascii) : Z := Z.of_N (code c - 48).

Fixpoint int_digits (acc : Z) (s : string) : option Z :=
  match s with
  | EmptyString => Some acc
  | String c r =>
      if is_digit c then int_digits (10 * acc + digit_val c) r
      else if Ascii.eqb c "_"
           then match r with
                | String d r' =>
                    if is_digit d then int_digits (10 * acc + digit_val d) r' else None
                | EmptyString => None
                end
           else None
  end.

Definition int_unsigned (s : string) : option Z :=
  match s with
  | String c r => if is_digit c then int_digits (digit_val c) r else None
  | EmptyString => None
  end.

Definition int (s : string) : pyres Z :=
  let body := rstrip_ws (lstrip_ws s) in
  let parsed :=
    match body with
    | String "-" r => option_map Z.opp (int_unsigned r)
    | String "+" r => int_unsigned r
    | _ => int_unsigned body
    end in
  match parsed with
  | Some z => Val z
  | None => Exc ValueError
  end.

(** [template.format(arg)] with one positional argument.  The escapes
    [{{] and [}}] give a brace, a single [}] is a [ValueError], and a
    replacement field is read up to its closing brace.  An empty field is
    numbered automatically, a field of digits is an index (the two ways of
    numbering cannot be mixed: [ValueError]), and there is one argument, at
    index 0: any other index is an [IndexError].  Any other name asks for a
    keyword argument, and there is none: [KeyError].  An opening brace
    inside a field and a field that is not closed are [ValueError]s too.
    Fields with attribute or index access, a conversion or a format
    specification (the characters [. [ ! :]) are outside what is modelled
    here; they are reported as [ValueError] and not interpreted further. *)
Definition emit (c : ascii) (r : pyres string) : pyres string :=
  match r with
  | Val t => Val (String c t)
  | Exc e => Exc e
  end.

Definition emit_text (a : string) (r : pyres string) : pyres string :=
  match r with
  | Val t => Val (a ++ t)
  | Exc e => Exc e
  end.

(** How the fields seen so far were numbered. *)
Inductive numbering : Type := Unnumbered | Automatic | Manual.

(** The largest index [str.format] reads before it gives up on the
    digits ([PY_SSIZE_T_MAX] on a 64-bit build). *)
Definition max_index : Z := 9223372036854775807.

(** The argument a field named [name] stands for, and the numbering after
    it. *)
Definition field_value (arg : string) (mode : numbering) (name : string)
  : pyres (string * numbering) :=
  match name with
  | EmptyString =>
      match mode with
      | Unnumbered => Val (arg, Automatic)
      | Automatic => Exc IndexError
      | Manual => Exc ValueError
      end
  | _ =>
      if forallb is_digit (list_ascii_of_string name) then
        match int_digits 0 name with
        | Some index =>
            if max_index <? index then Exc ValueError
            else match mode with
                 | Automatic => Exc ValueError
                 | _ => if index =? 0 then Val (arg, Manual) else Exc IndexError
                 end
        | None => Exc ValueError
        end
      else Exc KeyError
  end.

(** [field] is [None] in literal text, and the name read so far inside a
    replacement field. *)
Fixpoint format_from (arg : string) (mode : numbering) (field : option string)
         (s : string) : pyres string :=
  match s with
  | EmptyString =>
      match field with
      | None => Val EmptyString
      | Some _ => Exc ValueError
      end
  | String c r =>
      match field with
      | Some name =>
          if Ascii.eqb c "}" then
            match field_value arg mode name with
            | Val (text, mode') => emit_text text (format_from arg mode' None r)
            | Exc e => Exc e
            end
          else if mem c "{[.!:" then Exc ValueError
          else format_from arg mode (Some (name ++ String c EmptyString)) r
      | None =>
          if Ascii.eqb c "{" then
            match r with
            | String d r' =>
                if Ascii.eqb d "{" then emit "{" (format_from arg mode None r')
                else format_from arg mode (Some EmptyString) r
            | EmptyString => Exc ValueError
            end
          else if Ascii.eqb c "}" then
            match r with
            | String d r' =>
                if Ascii.eqb d "}" then emit "}" (format_from arg mode None r')
                else Exc ValueError
            | EmptyString => Exc ValueError
            end
          else emit c (format_from arg mode None r)
      end
  end.
Definition format1 (template arg : string) : pyres string :=
  format_from arg Unnumbered None template.

(** Python list indexing: a negative index counts from the end. *)
Definition norm_index {A} (l : list A) (i : Z) : option nat :=
  let n := Z.of_nat (List.length l) in
  let j := if i <? 0 then i + n else i in
  if (0 <=? j) && (j <? n) then Some (Z.to_nat j) else None.

Definition getitem {A} (l : list A) (i : Z) : pyres A :=
  match norm_index l i with
  | Some j => match nth_error l j with Some x => Val x | None => Exc IndexError end
  | None => Exc IndexError
  end.

Fixpoint set_nth {A} (l : list A) (j : nat) (x : A) : list A :=
  match l, j with
  | [], _ => []
  | _ :: r, O => x :: r
  | y :: r, S k => y :: set_nth r k x
  end.

Definition setitem {A} (l : list A) (i : Z) (x : A) : pyres (list A) :=
  match norm_index l i with
  | Some j => Val (set_nth l j x)
  | None => Exc IndexError
  end.

End Py.

(** The line feed and the statement separator of the emitted document. *)
Definition LF : string := String "010" EmptyString.
Definition SEP : string := ";" ++ LF.

(** ** Syntax tree ([AST.py])

    One constructor per node class, with the attributes the transpiler
    reads.  The class [String] is [StringLit] here and [Variable] is the
    binding [Var] below, because Rocq reserves those names.  Source
    positions ([_pos]) only decorate diagnostics and are left out. *)

(** Formal argument type of a native instruction: the name of the type class
    and its accepted values, nested as [get_values] returns them. *)
Inductive nested : Type :=
| Leaf (s : string)
| Nest (l : list nested).

Record argtype : Type := { arg_name : string; get_values : list nested }.

Inductive node : Type :=
| Script (children : list node)
| Rule (disabled : bool) (name : list (string + node)) (children : list node)
| Function (name : string) (params : list node) (children : list node)
| Block (children : list node)
| Ruleblock (name : string) (children : list node)
| OWID (name : string) (args : list (option argtype)) (children : list node)
| Constant (name : string)
| Compare (left : node) (op : string) (right : node)
| Assign (left : node) (op : string) (right : node)
| If (cond : node) (true_block : node) (false_block : option node)
| While (cond : node) (body : node)
| For (pointer : node) (iterable : node) (body : node)
| BinaryOp (left : node) (op : string) (right : node)
| UnaryOp (op : string) (right : node)
| GlobalVar (name : string)
| PlayerVar (name : string) (player : node)
| StringLit (value : string) (children : list node)
| Number (value : string)
| Time (value : string)
| Vector (children : list node)
| Array (elements : list node)
| Item (parent : node) (index : node)
| Attribute (parent : node) (name : string)
| Call (parent : node) (args : list node)
| Return (value : option node).

(** [type(node).__name__]. *)
Definition class_name (n : node) : string :=
  match n with
  | Script _ => "Script" | Rule _ _ _ => "Rule" | Function _ _ _ => "Function"
  | Block _ => "Block" | Ruleblock _ _ => "Ruleblock" | OWID _ _ _ => "OWID"
  | Constant _ => "Constant" | Compare _ _ _ => "Compare" | Assign _ _ _ => "Assign"
  | If _ _ _ => "If" | While _ _ => "While" | For _ _ _ => "For"
  | BinaryOp _ _ _ => "BinaryOp" | UnaryOp _ _ => "UnaryOp"
  | GlobalVar _ => "GlobalVar" | PlayerVar _ _ => "PlayerVar"
  | StringLit _ _ => "String" | Number _ => "Number" | Time _ => "Time"
  | Vector _ => "Vector" | Array _ => "Array" | Item _ _ => "Item"
  | Attribute _ _ => "Attribute" | Call _ _ => "Call" | Return _ => "Return"
  end.

(** [node.children]: every node owns a (possibly empty) list of children. *)
Definition children_of (n : node) : list node :=
  match n with
  | Script c | Rule _ _ c | Function _ _ c | Block c | Ruleblock _ c
  | OWID _ _ c | StringLit _ c | Vector c => c
  | _ => []
  end.

(** [node.name] where it is a text; reading it on a class without that
    attribute raises. *)
Definition name_of (n : node) : pyres string :=
  match n with
  | Function x _ _ | Ruleblock x _ | OWID x _ _ | Constant x
  | GlobalVar x | PlayerVar x _ | Attribute _ x => Val x
  | _ => Exc AttributeError
  end.

(** The slot index stored in a binding: [None], an integer, or (when the
    index was read off an [Item] node bound to a parameter) a node. *)
Inductive slot : Type :=
| SlotNone
| SlotInt (z : Z)
| SlotNode (n : node).

(** The compile-time functions of class [Builtin]. *)
Inductive builtin : Type := Brange | Bceil | Bfloor.

(** What a scope maps a name to: a [Variable(value, index)], the raw
    argument node of an inlined call, or a compile-time function. *)
Inductive binding : Type :=
| Var (value : node) (index : slot)
| Raw (n : node)
| Fn (b : builtin).

(** ** Errors ([Errors.py]) and the transpiler state *)

Module Errors.
Inductive exn : Type :=
| SyntaxError (msg : string)
| InvalidParameter (msg : string)
| NameError (msg : string)
| AttributeError (msg : string)
| NotImplementedError (msg : string)
| ReturnError (value : node)
| Builtin (e : pyexc).
End Errors.

(** A [Scope] object: its name and its own namespace.  The parent link is
    the rest of the chain held in the state. *)
Record frame : Type := { scope_name : string; namespace : gmap string binding }.

(** The [Transpiler] object together with the chain of the scope that is
    being passed to the visitor: [scope] is the [scope] argument, [parents]
    its ancestors, innermost first.  [stdout] records the debugging
    [print] calls, each by its first argument, the fixed text the printed
    line starts with; what Python prints after it (the message of the
    exception, the representation of a class) is not recorded. *)
Record state : Type := {
  indent_size : Z;
  indent_level : Z;
  global_index : nat;
  player_index : nat;
  curblock : list string;
  scope : frame;
  parents : list frame;
  stdout : list string
}.

Inductive outcome (A : Type) : Type :=
| Ok (a : A)
| Raise (e : Errors.exn)
| OutOfFuel.
Arguments Ok {A} a.
Arguments Raise {A} e.
Arguments OutOfFuel {A}.

Definition M (A : Type) : Type := state -> outcome A * state.

Definition ret {A} (a : A) : M A := fun st => (Ok a, st).

Definition bind {A B} (m : M A) (k : A -> M B) : M B :=
  fun st =>
    match m st with
    | (Ok a, st') => k a st'
    | (Raise e, st') => (Raise e, st')
    | (OutOfFuel, st') => (OutOfFuel, st')
    end.

Definition raise {A} (e : Errors.exn) : M A := fun st => (Raise e, st).

Definition py_raise {A} (e : pyexc) : M A := raise (Errors.Builtin e).

Definition lift {A} (r : pyres A) : M A :=
  match r with
  | Val a => ret a
  | Exc e => py_raise e
  end.

Notation "'let*' x ':=' m 'in' k" := (bind m (fun x => k))
  (at level 10, x pattern, m at level 100, k at level 200).
Notation "m1 ';;' m2" := (bind m1 (fun _ => m2))
  (at level 100, right associativity).

(** [try: m except E: h] for a built-in exception class [E]. *)
Definition pyexc_eqb (a b : pyexc) : bool :=
  match a, b with
  | ValueError, ValueError | TypeError, TypeError
  | AttributeError, AttributeError | IndexError, IndexError
  | KeyError, KeyError | ZeroDivisionError, ZeroDivisionError
  | UnboundLocalError, UnboundLocalError => true
  | _, _ => false
  end.

Definition try_except {A} (m : M A) (E : pyexc) (h : M A) : M A :=
  fun st =>
    match m st with
    | (Raise (Errors.Builtin e), st') =>
        if pyexc_eqb e E then h st' else (Raise (Errors.Builtin e), st')
    | r => r
    end.

(** [try: m except Errors.ReturnError as ex: h ex.value]. *)
Definition try_return {A} (m : M A) (h : node -> M A) : M A :=
  fun st =>
    match m st with
    | (Raise (Errors.ReturnError v), st') => h v st'
    | r => r
    end.

(** ** State access *)

Definition gets {A} (f : state -> A) : M A := fun st => (Ok (f st), st).

Definition modify (f : state -> state) : M unit := fun st => (Ok tt, f st).

Fixpoint traverse {A B} (f : A -> M B) (l : list A) : M (list B) :=
  match l with
  | [] => ret []
  | x :: r => let* y := f x in let* ys := traverse f r in ret (y :: ys)
  end.

Definition set_indent_level (z : Z) (st : state) : state :=
  {| indent_size := indent_size st; indent_level := z;
     global_index := global_index st; player_index := player_index st;
     curblock := curblock st; scope := scope st; parents := parents st;
     stdout := stdout st |}.

Definition set_global_index (n : nat) (st : state) : state :=
  {| indent_size := indent_size st; indent_level := indent_level st;
     global_index := n; player_index := player_index st;
     curblock := curblock st; scope := scope st; parents := parents st;
     stdout := stdout st |}.

Definition set_player_index (n : nat) (st : state) : state :=
  {| indent_size := indent_size st; indent_level := indent_level st;
     global_index := global_index st; player_index := n;
     curblock := curblock st; scope := scope st; parents := parents st;
     stdout := stdout st |}.

Definition set_curblock (l : list string) (st : state) : state :=
  {| indent_size := indent_size st; indent_level := indent_level st;
     global_index := global_index st; player_index := player_index st;
     curblock := l; scope := scope st; parents := parents st;
     stdout := stdout st |}.

Definition set_chain (f : frame) (ps : list frame) (st : state) : state :=
  {| indent_size := indent_size st; indent_level := indent_level st;
     global_index := global_index st; player_index := player_index st;
     curblock := curblock st; scope := f; parents := ps;
     stdout := stdout st |}.

(** [print(line, ...)]: a debugging line that starts with [line]. *)
Definition print (line : string) : M unit :=
  modify (fun st =>
  {| indent_size := indent_size st; indent_level := indent_level st;
     global_index := global_index st; player_index := player_index st;
     curblock := curblock st; scope := scope st; parents := parents st;
     stdout := stdout st ++ [line] |}).

(** [self.tabs]: [' ' * self.indent_size * self.indent_level]. *)
Definition tabs_of (st : state) : string :=
  Py.repeat (Py.repeat " " (indent_size st)) (indent_level st).
Definition tabs : M string := gets tabs_of.

(** [self.min_wait]. *)
Definition min_wait : string := "Wait(0.016, Ignore Condition)".

(** [next(self.global_index)], [next(self.player_index)]. *)
Definition next_global_index : M nat :=
  fun st => (Ok (global_index st), set_global_index (S (global_index st)) st).
Definition next_player_index : M nat :=
  fun st => (Ok (player_index st), set_player_index (S (player_index st)) st).

(** ** class Scope *)

(** [Scope.get]: the own namespace first, then the parents. *)
Fixpoint chain_get (chain : list frame) (name : string) : option binding :=
  match chain with
  | [] => None
  | f :: ps =>
      match namespace f !! name with
      | Some b => Some b
      | None => chain_get ps name
      end
  end.

Definition scope_chain (st : state) : list frame := scope st :: parents st.

Definition scope_get (name : string) : M (option binding) :=
  gets (fun st => chain_get (scope_chain st) name).

(** [Scope.assign]: always writes the scope's own namespace. *)
Definition frame_assign (name : string) (b : binding) (f : frame) : frame :=
  {| scope_name := scope_name f; namespace := <[name := b]> (namespace f) |}.

Definition scope_assign (name : string) (value : node) (index : slot) : M unit :=
  modify (fun st => set_chain (frame_assign name (Var value index) (scope st)) (parents st) st).

(** [var.value[index] = value] mutates the array object in place, and the
    binding through which it was found sees the update: rewrite that
    binding, in the first frame that has the name.  The tree is a value
    here, so other references to the same array object (the literal in the
    tree, a binding of the name in another scope) keep their elements. *)
Fixpoint chain_replace (chain : list frame) (name : string) (b : binding) : list frame :=
  match chain with
  | [] => []
  | f :: ps =>
      match namespace f !! name with
      | Some _ => frame_assign name b f :: ps
      | None => f :: chain_replace ps name b
      end
  end.

Definition scope_replace (name : string) (b : binding) : M unit :=
  modify (fun st =>
    match chain_replace (scope_chain st) name b with
    | f :: ps => set_chain f ps st
    | [] => st
    end).

(** [scope = Scope(name, parent=scope)] for the extent of [m]: the child is
    dropped when [m] returns or raises, its parents keep what was mutated
    in place. *)
Definition push_scope (name : string) (ns : gmap string binding) (st : state) : state :=
  set_chain {| scope_name := name; namespace := ns |} (scope st :: parents st) st.

Definition pop_scope (st : state) : state :=
  match parents st with
  | p :: ps => set_chain p ps st
  | [] => st
  end.

Definition with_child_scope {A} (name : string) (ns : gmap string binding) (m : M A) : M A :=
  fun st =>
    let '(r, st') := m (push_scope name ns st) in
    (r, pop_scope st').

(** ** Collaborators outside the verified sources

    What the transpiler asks of the node classes of [AST.py], of the
    instruction vocabulary of [Workshop.py] and of floating-point
    arithmetic.  The transpiler is verified for every implementation of
    this interface. *)

(** What [var.value] can be: a node, a text (the [value] of a literal node
    bound as a raw argument) or [None]. *)
Inductive pyvalue : Type :=
| PNode (n : node)
| PStr (s : string)
| PNone.

Inductive arith : Type := OpAdd | OpSub | OpMul | OpDiv | OpPow | OpMod.

(** The units [visitTime] converts to seconds. *)
Inductive time_unit : Type := Milliseconds | Seconds | Minutes.

Class Collaborators : Type := {
  (** [number_arith f a b]: the text of ['{}'.format(x)] for the result
      [x] of Python's operator [f] on [Number(a)] and [Number(b)]. *)
  number_arith : arith -> string -> string -> pyres string;
  (** [int(node)], as [Builtin.range] applies it to its arguments. *)
  number_int : node -> pyres Z;
  (** The nodes obtained by unpacking (iterating) a node. *)
  node_iter : node -> pyres (list node);
  (** ['{}'.format(node)]. *)
  node_str : node -> string;
  (** [str(round(x, 3))] for the float [x] that [visitTime] computes from
      the digits of a [Time] literal: [float(text) / 1000] for milliseconds,
      [float(text)] for seconds, [float(text) * 60] for minutes; [float]
      raises [ValueError] on a text that is not a number. *)
  time_text : time_unit -> string -> pyres string;
  (** [getattr(node, attr)] for the format templates of attribute access;
      [None] when the class has no such attribute. *)
  node_getattr : node -> string -> option string;
  (** Calling the method [getattr(value, name)] of a bound value on the
      argument nodes: [None] when there is no such method, otherwise the
      node it returns (possibly none) or the exception it raises. *)
  node_method : pyvalue -> string -> list node -> option (pyres (option node));
  (** The formal argument types [OWID(name=...)] is built with. *)
  owid_args : string -> list (option argtype)
}.

(** [flatten]: the leaves of a nested list, left to right. *)
Fixpoint flatten_nested (x : nested) : list string :=
  match x with
  | Leaf s => [s]
  | Nest l => flat_map flatten_nested l
  end.
Definition flatten (l : list nested) : list string := flat_map flatten_nested l.

(** ** Values held by bindings *)

(** [var.value] for the object a scope returned. *)
Definition binding_value (b : binding) : pyres pyvalue :=
  match b with
  | Var v _ => Val (PNode v)
  | Raw (Number s) | Raw (StringLit s _) | Raw (Time s) => Val (PStr s)
  | Raw (Return (Some v)) => Val (PNode v)
  | Raw (Return None) => Val PNone
  | _ => Exc AttributeError
  end.

(** [var.index] for the object a scope returned. *)
Definition binding_index (b : binding) : pyres slot :=
  match b with
  | Var _ i => Val i
  | Raw (Item _ idx) => Val (SlotNode idx)
  | _ => Exc AttributeError
  end.

(** The same object after its value was mutated in place. *)
Definition binding_with_value (b : binding) (v : node) : binding :=
  match b with
  | Var _ i => Var v i
  | Raw (Return _) => Raw (Return (Some v))
  | other => other
  end.

(** Modelled from the spec: the item protocol of class [Array] in [AST.py]
    ("element assignment reconstructs the full element sequence with one
    entry replaced"): [array[i]] reads and [array[i] = x] replaces element
    [i] of [elements], with Python's list indexing.  No other node class
    is subscriptable. *)
Definition value_getitem (v : pyvalue) (i : Z) : pyres pyvalue :=
  match v with
  | PNode (Array es) =>
      match Py.getitem es i with
      | Val x => Val (PNode x)
      | Exc e => Exc e
      end
  | PStr s =>
      match Py.getitem (list_ascii_of_string s) i with
      | Val c => Val (PStr (String c EmptyString))
      | Exc e => Exc e
      end
  | _ => Exc TypeError
  end.

Definition value_setitem (v : pyvalue) (i : Z) (x : node) : pyres node :=
  match v with
  | PNode (Array es) =>
      match Py.setitem es i x with
      | Val es' => Val (Array es')
      | Exc e => Exc e
      end
  | _ => Exc TypeError
  end.

(** ** class Builtin *)

(** Python's [range(start, stop, step)] for a non-zero [step]. *)
Fixpoint range_from (start step : Z) (n : nat) : list Z :=
  match n with
  | O => []
  | S k => start :: range_from (start + step) step k
  end.

Definition range_len (start stop step : Z) : nat :=
  if 0 <? step
  then Z.to_nat ((stop - start + step - 1) / step)
  else Z.to_nat ((start - stop - step - 1) / (- step)).

Definition py_range (args : list Z) : pyres (list Z) :=
  match args with
  | [stop] => Val (range_from 0 1 (range_len 0 stop 1))
  | [start; stop] => Val (range_from start 1 (range_len start stop 1))
  | [start; stop; step] =>
      if step =? 0 then Exc ValueError
      else Val (range_from start step (range_len start stop step))
  | _ => Exc TypeError
  end.

Fixpoint map_res {A B} (f : A -> pyres B) (l : list A) : pyres (list B) :=
  match l with
  | [] => Val []
  | x :: r =>
      match f x with
      | Exc e => Exc e
      | Val y => match map_res f r with
                 | Exc e => Exc e
                 | Val ys => Val (y :: ys)
                 end
      end
  end.

Module Builtin.
Section Builtin.
Context `{Collaborators}.

Definition range (args : list node) : pyres node :=
  match map_res number_int args with
  | Exc e => Exc e
  | Val ints =>
      match py_range ints with
      | Exc e => Exc e
      | Val zs => Val (Array (map (fun z => Number (Py.str_of_Z z)) zs))
      end
  end.

Definition ceil (tp n : node) : pyres node :=
  match node_iter n with
  | Exc e => Exc e
  | Val ns =>
      Val (OWID "Round To Integer" (owid_args "Round To Integer")
                (ns ++ [OWID "Up" (owid_args "Up") []]))
  end.

Definition floor (tp n : node) : pyres node :=
  match node_iter n with
  | Exc e => Exc e
  | Val ns =>
      Val (OWID "Round To Integer" (owid_args "Round To Integer")
                (ns ++ [OWID "Up" (owid_args "Up") []]))
  end.

(** [func(...)] with the argument nodes unpacked into the parameters; a
    wrong number of arguments is a [TypeError]. *)
Definition call (b : builtin) (args : list node) : pyres node :=
  match b, args with
  | Brange, _ => range args
  | Bceil, [tp; n] => ceil tp n
  | Bfloor, [tp; n] => floor tp n
  | _, _ => Exc TypeError
  end.

(** [Builtin.__annotations__]: the names registered in the global scope. *)
Definition annotations : list (string * builtin) :=
  [("range", Brange); ("ceil", Bceil); ("floor", Bfloor)].
End Builtin.
End Builtin.


(** ** class Transpiler: the visitor methods

    Each [visitX] is written against the dispatcher [visit], which is a
    section variable here (Python resolves [self.visit] dynamically) and is
    instantiated with the fuelled fixpoint below. *)

(** The double quote character as a text. *)
Definition DQ : string := String "034" EmptyString.

Definition slot_str `{Collaborators} (i : slot) : string :=
  match i with
  | SlotNone => "None"
  | SlotInt z => Py.str_of_Z z
  | SlotNode n => node_str n
  end.

(** The local variable [player] of [visitAssign]: unbound, a node, or an
    object that has no visitor method. *)
Inductive player_ref : Type :=
| PlayerUnbound
| PlayerNode (n : node)
| PlayerOther.

Definition arith_of_op (op : string) : option arith :=
  if String.eqb op "+" then Some OpAdd
  else if String.eqb op "-" then Some OpSub
  else if String.eqb op "*" then Some OpMul
  else if String.eqb op "/" then Some OpDiv
  else if String.eqb op "^" then Some OpPow
  else if String.eqb op "%" then Some OpMod
  else None.

Definition instruction_of_op (op : string) : option string :=
  if String.eqb op "+" then Some "Add"
  else if String.eqb op "-" then Some "Subtract"
  else if String.eqb op "*" then Some "Multiply"
  else if String.eqb op "/" then Some "Divide"
  else if String.eqb op "^" then Some "Raise To Power"
  else if String.eqb op "%" then Some "Modulo"
  else if String.eqb op "or" then Some "Or"
  else if String.eqb op "and" then Some "And"
  else None.

(** The value stored by an assignment: compound operators become the
    corresponding [BinaryOp]. *)
Definition assigned_value (left : node) (op : string) (right : node) : node :=
  if String.eqb op "+=" then BinaryOp left "+" right
  else if String.eqb op "-=" then BinaryOp left "-" right
  else if String.eqb op "*=" then BinaryOp left "*" right
  else if String.eqb op "/=" then BinaryOp left "/" right
  else if String.eqb op "^=" then BinaryOp left "^" right
  else if String.eqb op "%=" then BinaryOp left "%" right
  else right.

(** [base_node]: climb out of attribute, call and item accesses. *)
Fixpoint base_node (n : node) : node :=
  match n with
  | Attribute p _ | Call p _ | Item p _ => base_node p
  | other => other
  end.

(** The replacement [visitArray] makes before rendering an element. *)
Definition array_element (e : node) : node :=
  match e with
  | StringLit _ _ | Constant _ => Constant "Null"
  | other => other
  end.

(** [dict(zip(names, args))]: a later duplicate overwrites an earlier one. *)
Definition bind_params (names : list string) (args : list node) : gmap string binding :=
  fold_left (fun m kv => <[fst kv := Raw (snd kv)]> m) (combine names args) ∅.

(** [resolve_skips], first loop: strip the markers and record the line
    numbers of the continue skips and of the lines before each loop start. *)
Fixpoint scan_markers (line_no : Z) (lines : list string)
  : list string * list Z * list Z :=
  match lines with
  | [] => ([], [], [])
  | line :: r =>
      let '(r', skips, skip_to) := scan_markers (line_no + 1) r in
      let is_skip := Py.re_match_ws "//SKIP TO" line in
      let is_start := Py.re_match_ws "//FOR START" line in
      let line' :=
        if is_start then Py.re_sub_remove "//FOR START" line
        else if is_skip then Py.re_sub_remove "//SKIP TO" line
        else line in
      (line' :: r',
       if is_skip then line_no :: skips else skips,
       if is_start then (line_no - 1) :: skip_to else skip_to)
  end.

(** [resolve_skips], second loop: [lines[skip] = lines[skip].format(jump)]
    for the pairs of [zip(skips, skip_to[::-1])]. *)
Fixpoint patch_skips (lines : list string) (pairs : list (Z * Z)) : pyres (list string) :=
  match pairs with
  | [] => Val lines
  | (skip, jump) :: r =>
      match Py.getitem lines skip with
      | Exc e => Exc e
      | Val template =>
          match Py.format1 template (Py.str_of_Z jump) with
          | Exc e => Exc e
          | Val line =>
              match Py.setitem lines skip line with
              | Exc e => Exc e
              | Val lines' => patch_skips lines' r
              end
          end
      end
  end.

Definition resolve_skips : M unit :=
  let* lines := gets curblock in
  let '(lines', skips, skip_to) := scan_markers 0 lines in
  modify (set_curblock lines') ;;
  let* patched := lift (patch_skips lines' (combine skips (rev skip_to))) in
  modify (set_curblock patched).

(** The fixed lines of a runtime [for] loop over the counter in global
    slot [index]: the counter reset, the increment, the joined block of body
    and trailer, the leading skip with its offset still a replacement field,
    and the line inserted for the continue skips. *)
Definition for_reset (index : nat) : string :=
  "Set Global Variable At Index(A, " ++ Py.str_of_nat index ++ ", 0)" ++ SEP.

Definition for_step (index : nat) : string :=
  "Modify Global Variable At Index(A, " ++ Py.str_of_nat index ++ ", Add, 1)".

Definition for_block (index : nat) (parts : list string) : string :=
  Py.join SEP (parts ++ [for_step index; min_wait; "Loop"; for_reset index]).

Definition for_skip (it ptr : string) : string :=
  "//FOR STARTSkip If(Compare(Count Of(" ++ it ++ "), ==, " ++ ptr ++ "), {})".

Definition for_continue (index : nat) : string :=
  "//SKIP TOSkip If(Compare(Value In Array(Global Variable(A), "
  ++ Py.str_of_nat index ++ "), !=, 0), {})".

Section Visitor.
Context `{Collaborators}.
Variable visit : node -> M string.

Definition visit_children (n : node) : M (list string) :=
  traverse visit (children_of n).

(** Visiting the object held in a value: only nodes have a visitor. *)
Definition visit_value (v : pyvalue) : M string :=
  match v with
  | PNode n => visit n
  | _ => py_raise AttributeError
  end.

Definition visit_player (p : player_ref) : M string :=
  match p with
  | PlayerUnbound => py_raise UnboundLocalError
  | PlayerNode n => visit n
  | PlayerOther => py_raise AttributeError
  end.

Definition visitScript (n : node) : M string :=
  let code := "rule(" ++ DQ ++ "Generated by https://github.com/adapap/OWScript"
              ++ DQ ++ ") { Event { Ongoing - Global; }}" ++ LF in
  let* parts := visit_children n in
  ret (Py.rstrip LF (code ++ Py.join "" parts)).

Definition visitRule (disabled : bool) (name : list (string + node)) (n : node) : M string :=
  let code := if disabled then "disabled " else "" in
  let code := code ++ "rule(" in
  let* parts := traverse (fun x => match x with
                               | inl text => ret text
                               | inr nd => visit nd
                               end) name in
  let code := code ++ DQ ++ Py.join "" parts ++ DQ in
  let* blocks := visit_children n in
  ret (code ++ ") {" ++ LF ++ Py.join LF blocks ++ "}" ++ LF).

Definition visitFunction (name : string) (n : node) : M string :=
  scope_assign ("gvar_" ++ name) n SlotNone ;;
  ret "".

Definition visitBlock (n : node) : M string :=
  modify (fun st => set_indent_level (indent_level st + 1) st) ;;
  let* parts := visit_children n in
  modify (fun st => set_indent_level (indent_level st - 1) st) ;;
  ret (Py.join "" parts).

(** The inner loop of [visitRuleblock]: visit one line and append its
    statements to [self.curblock]. *)
Definition ruleblock_line (block_name : string) (line : node) : M unit :=
  let* result := visit line in
  if String.eqb result "" then ret tt
  else
    let* t := tabs in
    let suffix := if String.eqb (Py.upper block_name) "CONDITIONS" then " == True" else "" in
    let stmts := Py.split (Py.rstrip SEP result) SEP in
    modify (fun st => set_curblock (curblock st ++ map (fun x => t ++ x ++ suffix) stmts) st).

Fixpoint ruleblock_lines (block_name : string) (lines : list node) : M unit :=
  match lines with
  | [] => ret tt
  | line :: r => ruleblock_line block_name line ;; ruleblock_lines block_name r
  end.

Fixpoint ruleblock_blocks (block_name : string) (code : string) (blocks : list node) : M string :=
  match blocks with
  | [] => ret code
  | ruleblock :: r =>
      modify (set_curblock []) ;;
      ruleblock_lines block_name (children_of ruleblock) ;;
      resolve_skips ;;
      let* lines := gets curblock in
      ruleblock_blocks block_name (code ++ Py.join SEP lines) r
  end.

Definition visitRuleblock (name : string) (n : node) : M string :=
  let* t := tabs in
  let code := t ++ name ++ " {" ++ LF in
  modify (fun st => set_indent_level (indent_level st + 1) st) ;;
  let* code := ruleblock_blocks name code (children_of n) in
  modify (fun st => set_indent_level (indent_level st - 1) st) ;;
  let* t := tabs in
  ret (code ++ SEP ++ t ++ "}" ++ LF).

(** The validation loop of [visitOWID] over [zip(node.args, node.children)]. *)
Fixpoint check_args (name : string) (index : nat)
         (pairs : list (option argtype * node)) : M unit :=
  match pairs with
  | [] => ret tt
  | (None, _) :: r => check_args name (S index) r
  | (Some arg, child) :: r =>
      let values := flatten (get_values arg) in
      if existsb (String.eqb "ANY") values then check_args name (S index) r
      else
        let* text := visit child in
        if existsb (String.eqb (Py.upper text)) values
        then check_args name (S index) r
        else raise (Errors.InvalidParameter
                      ("'" ++ name ++ "' expected type " ++ arg_name arg
                       ++ " for argument " ++ Py.str_of_nat (S index)
                       ++ ", received " ++ class_name child))
  end.

Definition visitOWID (n : node) (node_name : string) (args : list (option argtype)) : M string :=
  let name := Py.title node_name in
  (if Nat.eqb (List.length args) (List.length (children_of n)) then ret tt
   else
     let* names := lift (map_res (fun a => match a with
                                          | Some arg => Val (arg_name arg)
                                          | None => Exc AttributeError
                                          end) args) in
     raise (Errors.SyntaxError
              ("'" ++ name ++ "' expected " ++ Py.str_of_nat (List.length args)
               ++ " arguments (" ++ Py.join ", " names ++ "), received "
               ++ Py.str_of_nat (List.length (children_of n))))) ;;
  check_args name O (combine args (children_of n)) ;;
  let* children := visit_children n in
  ret (name ++ "(" ++ Py.join ", " children ++ ")").

Definition visitConstant (name : string) : M string := ret (Py.title name).

Definition visitCompare (left : node) (op : string) (right : node) : M string :=
  if String.eqb (Py.lower op) "in" then
    let* r := visit right in
    let* l := visit left in
    ret ("Array Contains(" ++ r ++ ", " ++ l ++ ")")
  else if String.eqb (Py.lower op) "not in" then
    let* r := visit right in
    let* l := visit left in
    ret ("Not(Array Contains(" ++ r ++ ", " ++ l ++ "))")
  else
    let* l := visit left in
    let* r := visit right in
    ret ("Compare(" ++ l ++ ", " ++ op ++ ", " ++ r ++ ")").

(** The index an assignment to a plain variable uses: the one of the
    visible binding if there is one, else a fresh draw. *)
Definition assign_index (var : option binding) (fresh : M nat) : M slot :=
  match var with
  | Some b => lift (binding_index b)
  | None => let* i := fresh in ret (SlotInt (Z.of_nat i))
  end.

(** The [try] block of the [Item] branch of [visitAssign]: the literal
    index, and the array after [var.value[index] = value]. *)
Definition assign_item (name : string) (var : option binding)
           (index_node value : node) : M (Z * node) :=
  let* text := visit index_node in
  let* index := lift (Py.int text) in
  match var with
  | None => py_raise AttributeError
  | Some b =>
      let* v := lift (binding_value b) in
      let* array := lift (value_setitem v index value) in
      scope_replace name (binding_with_value b array) ;;
      ret (index, array)
  end.

(** The tail of [visitAssign]: the emitted store instruction. *)
Definition assign_code (name : string) (index : slot) (value : node)
           (player : player_ref) : M string :=
  if Py.startswith name "gvar_" then
    let* v := visit value in
    ret ("Set Global Variable At Index(A, " ++ slot_str index ++ ", " ++ v ++ ")")
  else if Py.startswith name "pvar_" then
    let* p := visit_player player in
    let* v := visit value in
    ret ("Set Player Variable At Index(" ++ p ++ ", A, " ++ slot_str index
         ++ ", " ++ v ++ ")")
  else ret "".

Definition visitAssign (left : node) (op : string) (right : node) : M string :=
  let value := assigned_value left op right in
  match left with
  | GlobalVar name =>
      let* var := scope_get name in
      let* index := assign_index var next_global_index in
      scope_assign name value index ;;
      assign_code name index value PlayerUnbound
  | PlayerVar name player =>
      let* var := scope_get name in
      let* index := assign_index var next_player_index in
      scope_assign name value index ;;
      assign_code name index value (PlayerNode player)
  | Item parent index_node =>
      let* name := lift (name_of parent) in
      let* var := scope_get name in
      let* stored :=
        try_except (assign_item name var index_node value) ValueError
          (raise (Errors.NotImplementedError
                    "Array assignment only supports literal indices")) in
      let '(index, array) := stored in
      (match parent with
       | PlayerVar _ player => let* _ := visit player in ret tt
       | _ => ret tt
       end) ;;
      scope_assign name array (SlotInt index) ;;
      assign_code name (SlotInt index) array PlayerOther
  | _ =>
      raise (Errors.NotImplementedError
               ("Assign to '" ++ class_name left ++ "' not implemented"))
  end.

(** The loop [for line in block.children: code += self.tabs +
    self.visit(line, scope) + ';\n']. *)
Fixpoint visit_lines (code : string) (lines : list node) : M string :=
  match lines with
  | [] => ret code
  | line :: r =>
      let* t := tabs in
      let* text := visit line in
      visit_lines (code ++ t ++ text ++ SEP) r
  end.

Definition visitIf (cond_node true_block : node) (false_block : option node) : M string :=
  let* cond := visit cond_node in
  let* true_parts := visit_children true_block in
  let true_code := Py.join "" true_parts in
  let* else_part :=
    match false_block with
    | None => ret ("", "")
    | Some fb =>
        let* t := tabs in
        let* false_code :=
          match fb with
          | If _ _ _ => visit fb
          | _ => visit_lines "" (children_of fb)
          end in
        let is_if := match fb with If _ _ _ => 1%nat | _ => 0%nat end in
        if String.eqb false_code "" then ret (t ++ "Skip({})" ++ SEP, false_code)
        else ret (t ++ "Skip(" ++ Py.str_of_nat (Py.count false_code SEP + is_if)
                    ++ ")" ++ SEP, false_code)
    end in
  let '(skip_false, false_code) := else_part in
  let has_else := match false_block with Some _ => 1%nat | None => 0%nat end in
  let skip_code := "Skip If(Not(" ++ cond ++ "), "
                   ++ Py.str_of_nat (Py.count true_code SEP + has_else) ++ ")" ++ SEP in
  ret (skip_code ++ true_code ++ skip_false ++ false_code).

Definition visitWhile (cond_node body : node) : M string :=
  let lines := (List.length (children_of body) + 2)%nat in
  let* cond := visit cond_node in
  let code := "Skip If(Not(" ++ cond ++ "), " ++ Py.str_of_nat lines ++ ")" ++ SEP in
  let* code := visit_lines code (children_of body) in
  let* t := tabs in
  let code := code ++ t ++ min_wait ++ SEP in
  let* t := tabs in
  let* cond := visit cond_node in
  ret (code ++ t ++ "Loop If(" ++ cond ++ ")").

(** The unrolled branch of [visitFor]: one nested child scope and one
    copy of the body per element. *)
Fixpoint for_unroll (pointer body : node) (elements : list node) : M (list string) :=
  match elements with
  | [] => ret []
  | elem :: r =>
      with_child_scope "for" ∅
        (let* name := lift (name_of pointer) in
         scope_assign name elem SlotNone ;;
         let* parts := visit_children body in
         let* rest := for_unroll pointer body r in
         ret (Py.join SEP parts :: rest))
  end.

(** The branch of [visitFor] for an iterable that is not bound to an
    array literal. *)
Definition for_runtime (pointer iterable body : node) : M string :=
  with_child_scope "for" ∅
    (let* index := next_global_index in
     let* name := lift (name_of pointer) in
     scope_assign name (Number "0") (SlotInt (Z.of_nat index)) ;;
     let reset_pointer := for_reset index in
     let* it := visit iterable in
     let* ptr := visit pointer in
     let skip_code := for_skip it ptr in
     let* parts := visit_children body in
     let block := for_block index parts in
     let* skip := lift (Py.format1 skip_code (Py.str_of_nat (Py.count block SEP))) in
     let code := reset_pointer ++ skip ++ SEP ++ block in
     let* t := tabs in
     modify (fun st => set_curblock ((t ++ for_continue index) :: curblock st) st) ;;
     ret code).

(** The test of [visitFor]: the elements of the array literal the
    iterable is bound to, if it is a variable bound to one. *)
Definition known_elements (iterable : node) : M (option (list node)) :=
  match iterable with
  | GlobalVar name | PlayerVar name _ =>
      let* var := scope_get name in
      match var with
      | None => py_raise AttributeError
      | Some b =>
          let* v := lift (binding_value b) in
          match v with
          | PNode (Array elements) => ret (Some elements)
          | _ => ret None
          end
      end
  | _ => ret None
  end.

Definition visitFor (pointer iterable body : node) : M string :=
  let* known := known_elements iterable in
  match known with
  | Some elements =>
      let* lines := for_unroll pointer body elements in
      ret (Py.join SEP lines)
  | None => for_runtime pointer iterable body
  end.

Definition visitBinaryOp (left : node) (op : string) (right : node) : M string :=
  let general : M string :=
    match instruction_of_op op with
    | Some name =>
        let* l := visit left in
        let* r := visit right in
        ret (name ++ "(" ++ l ++ ", " ++ r ++ ")")
    | None =>
        let* l := visit left in
        let* r := visit right in
        py_raise TypeError
    end in
  match left, right with
  | Number a, Number b =>
      match arith_of_op op with
      | Some func =>
          try_except
            (let* result := lift (number_arith func a b) in
             visit (Number result))
            ZeroDivisionError
            (visit (Number "0"))
      | None => general
      end
  | _, _ => general
  end.

Definition visitUnaryOp (op : string) (right : node) : M string :=
  if String.eqb op "-" then
    let* r := visit right in ret ("-" ++ r)
  else if String.eqb op "+" then
    let* r := visit right in ret ("Abs(" ++ r ++ ")")
  else if String.eqb op "not" then
    let* r := visit right in ret ("Not(" ++ r ++ ")")
  else py_raise UnboundLocalError.

Definition visitGlobalVar (name : string) : M string :=
  let* var := scope_get name in
  match var with
  | None => raise (Errors.NameError ("'" ++ Py.drop 5 name ++ "' is undefined"))
  | Some (Raw n) => visit n
  | Some (Fn _) => py_raise AttributeError
  | Some (Var (StringLit text _) _) => ret text
  | Some (Var _ index) =>
      ret ("Value In Array(Global Variable(A), " ++ slot_str index ++ ")")
  end.

Definition visitPlayerVar (name : string) (player : node) : M string :=
  let* var := scope_get name in
  match var with
  | None => raise (Errors.NameError ("pvar '" ++ Py.drop 5 name ++ "' is undefined"))
  | Some (Raw n) => visit n
  | Some (Fn _) => py_raise AttributeError
  | Some (Var (StringLit text _) _) => ret text
  | Some (Var _ index) =>
      let* p := visit player in
      ret ("Value In Array(Player Variable(" ++ p ++ ", A), " ++ slot_str index ++ ")")
  end.

Definition visitString (value : string) (n : node) : M string :=
  let code := "String(" ++ DQ ++ Py.title value ++ DQ ++ ", " in
  let* children := visit_children n in
  ret (code ++ Py.join ", " children ++ ")").

Definition visitNumber (value : string) : M string := ret value.

(** [visitTime]: the suffixes are tested in the order [ms], [s], [min],
    and [rstrip] removes every trailing character of the suffix, not the
    suffix once.  A text with none of the suffixes stays a text, which
    [round] refuses with a [TypeError]. *)
Definition visitTime (value : string) : M string :=
  if Py.endswith value "ms" then lift (time_text Milliseconds (Py.rstrip "ms" value))
  else if Py.endswith value "s" then lift (time_text Seconds (Py.rstrip "s" value))
  else if Py.endswith value "min" then lift (time_text Minutes (Py.rstrip "min" value))
  else py_raise TypeError.

Definition visitVector (n : node) : M string :=
  let* components := visit_children n in
  ret ("Vector(" ++ Py.join ", " components ++ ")").

Definition visitArray (elements : list node) : M string :=
  match elements with
  | [] => ret "Empty Array"
  | _ =>
      let elements' := map array_element elements in
      let num_elems := List.length elements' in
      if Nat.eqb num_elems 0 then ret "Empty Array"
      else
        let code := Py.repeat_nat "Append To Array(" num_elems in
        let* rendered := traverse visit elements' in
        ret (code ++ "Empty Array, " ++ Py.join "), " rendered ++ ")")
  end.

Definition visitItem (parent index : node) : M string :=
  let general : M string :=
    let* p := visit parent in
    let* i := visit index in
    ret ("Value In Array(" ++ p ++ ", " ++ i ++ ")") in
  match index, parent with
  | Number text, (GlobalVar name | PlayerVar name _) =>
      try_except
        (let* k := lift (Py.int text) in
         let* var := scope_get name in
         match var with
         | None =>
             let kind := match parent with PlayerVar _ _ => "pvar " | _ => "" end in
             raise (Errors.NameError (kind ++ "'" ++ Py.drop 5 name ++ "' is undefined"))
         | Some b =>
             let* v := lift (binding_value b) in
             let* item :=
               match value_getitem v k with
               | Val x => ret x
               | Exc IndexError => ret (PNode (Number "0"))
               | Exc e => py_raise e
               end in
             visit_value item
         end)
        ValueError
        general
  | _, _ => general
  end.

Definition visitAttribute (parent : node) (name : string) : M string :=
  let attr := Py.lower name in
  match node_getattr parent attr with
  | None =>
      let* parent_name := lift (name_of parent) in
      raise (Errors.AttributeError
               ("'" ++ Py.title parent_name ++ "' has no attribute '" ++ attr ++ "'"))
  | Some attribute =>
      let* p := visit parent in
      lift (Py.format1 attribute p)
  end.

(** The body loop of an inlined call: a [ReturnError] raised by a child
    is caught around that child and replaced by the rendering of the
    returned expression. *)
Fixpoint call_body (code : string) (children : list node) : M string :=
  match children with
  | [] => ret code
  | child :: r =>
      let* text := try_return (visit child) (fun value => visit value) in
      call_body (code ++ text) r
  end.

(** Reading the local [func_name] of [visitCall], bound only when the
    callee is written as a variable. *)
Definition read_local (x : option string) : M string :=
  match x with
  | Some v => ret v
  | None => py_raise UnboundLocalError
  end.

Definition visitCall (n parent : node) (args : list node) : M string :=
  let* base_name := lift (name_of (base_node n)) in
  let* base := scope_get base_name in
  match parent with
  | Attribute _ method_name =>
      let* b := match base with
                | Some b => ret b
                | None => py_raise AttributeError
                end in
      let* v := lift (binding_value b) in
      match node_method v method_name args with
      | None => py_raise AttributeError
      | Some (Exc TypeError) =>
          raise (Errors.InvalidParameter
                   ("'" ++ method_name ++ "' method received invalid arguments"))
      | Some (Exc e) => py_raise e
      | Some (Val None) => ret ""
      | Some (Val (Some result)) => visit result
      end
  | _ =>
      let* func_name :=
        match parent with
        | GlobalVar name | PlayerVar name _ => ret (Some (Py.drop 5 name))
        | _ => print "DEBUG - called by:" ;; ret None
        end in
      match base with
      | None => raise (Errors.NameError ("Undefined function '" ++ Py.drop 5 base_name ++ "'"))
      | Some b =>
          let func := match b with
                      | Var v _ => inl v
                      | Raw v => inl v
                      | Fn f => inr f
                      end in
          match func with
          | inl (Function _ params children) =>
              if Nat.eqb (List.length params) (List.length args) then
                let* fname := read_local func_name in
                let* names := lift (map_res name_of params) in
                with_child_scope fname (bind_params names args)
                  (call_body "" children)
              else
                let* fname := read_local func_name in
                raise (Errors.InvalidParameter
                         ("'" ++ fname ++ "' expected "
                          ++ Py.str_of_nat (List.length params)
                          ++ " arguments, received "
                          ++ Py.str_of_nat (List.length args)))
          | inl _ =>
              try_except (py_raise TypeError) TypeError (print "typeerror" ;; ret "")
          | inr f =>
              try_except
                (let* result := lift (Builtin.call f args) in visit result)
                TypeError
                (print "typeerror" ;; ret "")
          end
      end
  end.

Definition visitReturn (value : option node) : M string :=
  match value with
  | Some v => raise (Errors.ReturnError v)
  | None => ret ""
  end.

(** [visit]: dispatch on the class of the node. *)
Definition dispatch (n : node) : M string :=
  match n with
  | Script _ => visitScript n
  | Rule disabled name _ => visitRule disabled name n
  | Function name _ _ => visitFunction name n
  | Block _ => visitBlock n
  | Ruleblock name _ => visitRuleblock name n
  | OWID name args _ => visitOWID n name args
  | Constant name => visitConstant name
  | Compare l op r => visitCompare l op r
  | Assign l op r => visitAssign l op r
  | If c t f => visitIf c t f
  | While c b => visitWhile c b
  | For p i b => visitFor p i b
  | BinaryOp l op r => visitBinaryOp l op r
  | UnaryOp op r => visitUnaryOp op r
  | GlobalVar name => visitGlobalVar name
  | PlayerVar name player => visitPlayerVar name player
  | StringLit value _ => visitString value n
  | Number value => visitNumber value
  | Time value => visitTime value
  | Vector _ => visitVector n
  | Array elements => visitArray elements
  | Item parent index => visitItem parent index
  | Attribute parent name => visitAttribute parent name
  | Call parent args => visitCall n parent args
  | Return value => visitReturn value
  end.
End Visitor.

(** The visitor with its recursion unfolded at most [fuel] times: inlining
    re-visits function bodies, so the recursion is not structural.  Running
    out of fuel is not an exception and no handler catches it. *)
Fixpoint visit `{Collaborators} (fuel : nat) (n : node) : M string :=
  match fuel with
  | O => fun st => (OutOfFuel, st)
  | S k => dispatch (visit k) n
  end.

(** [Transpiler.__init__] and [run]. *)
Definition global_scope : frame :=
  {| scope_name := "global";
     namespace := fold_left (fun m kv => <["gvar_" ++ fst kv := Fn (snd kv)]> m)
                            Builtin.annotations ∅ |}.

Definition init (indent : Z) : state :=
  {| indent_size := indent; indent_level := 0; global_index := 0; player_index := 0;
     curblock := []; scope := global_scope; parents := []; stdout := [] |}.

Definition run `{Collaborators} (fuel : nat) (tree : node) : outcome string * state :=
  visit fuel tree (init 3).

(** ** Number literals *)

(** Modelled from the spec: the number a [Number] literal denotes ("the
    result re-emitted as a Number literal").  The lexer that reads literals
    and the class [Number] are in [Lexer.py] and [AST.py], which are not
    among the verified sources.  A literal is decimal notation: an optional
    sign, digits, an optional fraction and an optional power of ten (the
    texts Python writes for finite integers and floats are of this form); it
    is read as a mantissa [m] and an exponent [e], and denotes
    [m * 10 ^ e]. *)
Fixpoint take_digits (s : string) : list ascii * string :=
  match s with
  | String c r =>
      if Py.is_digit c
      then let '(ds, rest) := take_digits r in (c :: ds, rest)
      else ([], s)
  | EmptyString => ([], s)
  end.

Definition digits_value (ds : list ascii) : Z :=
  fold_left (fun acc c => 10 * acc + Py.digit_val c) ds 0.

Definition take_sign (s : string) : Z * string :=
  match s with
  | String "-" r => (-1, r)
  | String "+" r => (1, r)
  | _ => (1, s)
  end.

Definition number_literal (text : string) : option (Z * Z) :=
  let '(sign, s1) := take_sign text in
  let '(whole, s2) := take_digits s1 in
  let '(fraction, s3) :=
    match s2 with
    | String "." r => take_digits r
    | _ => ([], s2)
    end in
  let mantissa := sign * digits_value (whole ++ fraction) in
  let scale := - Z.of_nat (List.length fraction) in
  match whole, s3 with
  | [], _ => None
  | _, EmptyString => Some (mantissa, scale)
  | _, String c r =>
      if Ascii.eqb c "e" || Ascii.eqb c "E" then
        let '(esign, r1) := take_sign r in
        match take_digits r1 with
        | (d :: ds, EmptyString) => Some (mantissa, scale + esign * digits_value (d :: ds))
        | _ => None
        end
      else None
  end.

Definition decimal_Q (m e : Z) : Q :=
  if 0 <=? e then inject_Z (m * 10 ^ e) else Qmake m (Z.to_pos (10 ^ (- e))).

(** The text Python writes for a rational rounded to three decimals, as
    a float: the integer part, a point, and the decimals without trailing
    zeros but at least one.  Ties are rounded to the even neighbour. *)
Definition round3 (q : Q) : Z :=
  let n := Qnum q * 1000 in
  let d := Zpos (Qden q) in
  let low := n / d in
  let twice := 2 * (n mod d) in
  if twice <? d then low
  else if d <? twice then low + 1
  else if Z.even low then low else low + 1.

Definition decimals_text (thousandths : Z) : string :=
  let digit k := Py.str_of_Z ((thousandths / k) mod 10) in
  match Py.rstrip "0" (digit 100 ++ digit 10 ++ digit 1) with
  | EmptyString => "0"
  | text => text
  end.

Definition round3_text (q : Q) : string :=
  let r := round3 q in
  (if r <? 0 then "-" else "") ++ Py.str_of_Z (Z.abs r / 1000) ++ "."
  ++ decimals_text (Z.abs r mod 1000).

Definition seconds_of (unit : time_unit) (q : Q) : Q :=
  match unit with
  | Milliseconds => (q / inject_Z 1000)%Q
  | Seconds => q
  | Minutes => (q * inject_Z 60)%Q
  end.

(** ** A reference implementation of the collaborators

    Modelled from the spec: the arithmetic of [Number] literals ("the
    operator is applied in floating-point/integer-consistent arithmetic";
    "division by zero is defined to fold to zero rather than failing"), on
    integer literals, where the arithmetic is exact: the result of an
    operator is a rational number, and dividing by zero (also taking a
    remainder by zero, or a negative power of zero) raises
    [ZeroDivisionError]. *)
Definition exact (f : arith) (x y : Z) : option Q :=
  match f with
  | OpAdd => Some (inject_Z (x + y))
  | OpSub => Some (inject_Z (x - y))
  | OpMul => Some (inject_Z (x * y))
  | OpDiv => if (y =? 0)%Z then None else Some (inject_Z x / inject_Z y)%Q
  | OpPow => if ((x =? 0) && (y <? 0))%Z then None else Some (Qpower (inject_Z x) y)
  | OpMod => if (y =? 0)%Z then None else Some (inject_Z (x mod y))
  end.

(** A text for a rational: an integer in decimal, otherwise a fraction. *)
Definition show_Q (q : Q) : string :=
  let r := Qred q in
  if Pos.eqb (Qden r) 1 then Py.str_of_Z (Qnum r)
  else Py.str_of_Z (Qnum r) ++ "/" ++ Py.str_of_Z (Zpos (Qden r)).

Definition exact_arith (show : arith -> Q -> string) (f : arith) (a b : string)
  : pyres string :=
  match Py.int a, Py.int b with
  | Val x, Val y =>
      match exact f x y with
      | Some q => Val (show f q)
      | None => Exc ZeroDivisionError
      end
  | _, _ => Exc TypeError
  end.

(** The instance used to run the transpiler on concrete trees: exact
    integer arithmetic, [int] of a [Number] literal, nodes that cannot be
    unpacked except an [Array] (its elements), times computed exactly from
    decimal literals and rounded to three decimals, no attribute templates,
    no methods, and instructions built without formal argument types. *)
Definition reference : Collaborators := {|
  number_arith := exact_arith (fun _ => show_Q);
  number_int := fun n => match n with Number v => Py.int v | _ => Exc TypeError end;
  node_iter := fun n => match n with Array es => Val es | _ => Exc TypeError end;
  node_str := class_name;
  time_text := fun unit text =>
                 match number_literal text with
                 | Some (m, e) => Val (round3_text (seconds_of unit (decimal_Q m e)))
                 | None => Exc ValueError
                 end;
  node_getattr := fun _ _ => None;
  node_method := fun _ _ _ => None;
  owid_args := fun _ => []
|}.

(** * Vocabulary of the properties *)

(** The state after [scope.assign(name, value, index)]. *)
Definition bind_local (name : string) (value : node) (i : slot) (st : state) : state :=
  set_chain (frame_assign name (Var value i) (scope st)) (parents st) st.

(** The state after the in-place update of the array found under [name]. *)
Definition replace_found (name : string) (b : binding) (st : state) : state :=
  match chain_replace (scope_chain st) name b with
  | f :: ps => set_chain f ps st
  | [] => st
  end.

(** Mapping the value of an outcome. *)
Definition outcome_map {A B} (f : A -> B) (r : outcome A * state) : outcome B * state :=
  match r with
  | (Ok a, st) => (Ok (f a), st)
  | (Raise e, st) => (Raise e, st)
  | (OutOfFuel, st) => (OutOfFuel, st)
  end.

(** The number of statements of a lowered text: its pieces between
    statement separators, as [visitRuleblock] splits it. *)
Definition statements (text : string) : nat :=
  List.length (Py.split (Py.rstrip SEP text) SEP).

(** The claim of exact folding at one input: lowering [a op b] gives a
    literal that denotes [q]. *)
Definition folds_exactly `{Collaborators} (a op b : string) (q : Q) : Prop :=
  exists fuel st text st' m e,
    visit fuel (BinaryOp (Number a) op (Number b)) st = (Ok text, st')
    /\ number_literal text = Some (m, e)
    /\ Qeq (decimal_Q m e) q.

(** [m'] agrees with [m] wherever [m] does not run out of fuel. *)
Definition refines {A} (m m' : M A) : Prop :=
  forall st r st', m st = (r, st') -> r <> OutOfFuel -> m' st = (r, st').

(** [c] does not occur in [s]. *)
Fixpoint free_of (c : ascii) (s : string) : bool :=
  match s with
  | EmptyString => true
  | String d r => negb (Ascii.eqb d c) && free_of c r
  end.

(** A text without braces: inserted into a template, it adds no
    replacement field. *)
Definition brace_free (s : string) : bool := free_of "{" s && free_of "}" s.

(** The number of pieces the statement separator cuts a text into. *)
Definition separated (text : string) : nat := List.length (Py.split text SEP).

(** How [visitArray] renders one element: a [String] or [Constant] node
    as the constant [Null], any other node as itself. *)
Definition render_element (v : node -> M string) (e : node) : M string :=
  match e with
  | StringLit _ _ | Constant _ => ret "Null"
  | other => v other
  end.

(** The chain of [Append To Array] calls around the rendered elements. *)
Definition append_chain (n : nat) (rendered : list string) : string :=
  Py.repeat_nat "Append To Array(" n ++ "Empty Array, " ++ Py.join "), " rendered ++ ")".

(** A script whose only rule calls the builtin [ceil] with one argument
    and then assigns a variable. *)
Definition arity_script : node :=
  Script [Rule false [inl "demo"]
            [Ruleblock "Actions"
               [Block [Call (GlobalVar "gvar_ceil") [Number "1"];
                       Assign (GlobalVar "gvar_x") "=" (Number "1")]]]].

(** A global counter incremented by a [while] loop while it is below 5. *)
Definition counter_script : node :=
  Script [Rule false [inl "count"]
            [Ruleblock "Actions"
               [Block [Assign (GlobalVar "gvar_n") "=" (Number "0");
                       While (Compare (GlobalVar "gvar_n") "<" (Number "5"))
                         (Block [Assign (GlobalVar "gvar_n") "+=" (Number "1")])]]]].

(** A function of one parameter called without arguments. *)
Definition arity_function_script : node :=
  Script [Function "f" [GlobalVar "gvar_a"] [Return (Some (GlobalVar "gvar_a"))];
          Rule false [inl "r"]
            [Ruleblock "Actions"
               [Block [Assign (GlobalVar "gvar_x") "=" (Call (GlobalVar "gvar_f") [])]]]].

(** ** Vocabulary of the invariants and of the further properties *)

(** The slot a binding carries, if it is a [Variable]. *)
Definition slot_of (b : binding) : option slot :=
  match b with
  | Var _ i => Some i
  | _ => None
  end.

(** The names of a scope with the slot each is bound to, and the same for
    a chain of scopes. *)
Definition frame_slots (f : frame) : gmap string (option slot) :=
  slot_of <$> namespace f.
Definition chain_slots (chain : list frame) : list (gmap string (option slot)) :=
  map frame_slots chain.

(** What every step of the transpiler keeps: the indentation unit, the
    slot counters up to growth, the names and slots of the enclosing
    scopes, and the names of the scope itself up to growth. *)
Record extends (st st' : state) : Prop := {
  ext_indent : indent_size st' = indent_size st;
  ext_global : (global_index st <= global_index st')%nat;
  ext_player : (player_index st <= player_index st')%nat;
  ext_parents : chain_slots (parents st') = chain_slots (parents st);
  ext_names : forall name, is_Some (namespace (scope st) !! name) ->
                           is_Some (namespace (scope st') !! name)
}.

Definition keeps_at {A} (st : state) (m : M A) : Prop :=
  forall r st', m st = (r, st') -> extends st st'.
Definition keeps {A} (m : M A) : Prop := forall st, keeps_at st m.

(** [flatten] as the source runs it: a work list whose head is spliced in
    place while it is a list, and popped and yielded when it is a leaf.
    One unit of fuel per splice or pop. *)
Fixpoint flatten_loop (fuel : nat) (l : list nested) : option (list string) :=
  match fuel with
  | O => None
  | S k =>
      match l with
      | [] => Some []
      | Leaf s :: r => option_map (cons s) (flatten_loop k r)
      | Nest inner :: r => flatten_loop k (inner ++ r)
      end
  end.

(** The number of leaves and lists in a nested value. *)
Fixpoint weight (x : nested) : nat :=
  match x with
  | Leaf _ => 1
  | Nest l => S (list_sum (map weight l))
  end.

(** An argument position that accepts every value: no declared type, or a
    type whose values include [ANY]. *)
Definition unconstrained (a : option argtype) : bool :=
  match a with
  | None => true
  | Some arg => existsb (String.eqb "ANY") (flatten (get_values arg))
  end.

(** The fixed first line of every emitted document. *)
Definition preamble : string :=
  "rule(" ++ DQ ++ "Generated by https://github.com/adapap/OWScript" ++ DQ
  ++ ") { Event { Ongoing - Global; }}".

(** A line that carries neither marker of [resolve_skips]. *)
Definition unmarked (line : string) : bool :=
  negb (Py.re_match_ws "//SKIP TO" line) && negb (Py.re_match_ws "//FOR START" line).

(** The compound assignment operators with their instructions. *)
Definition compound_ops : list (string * string * string) :=
  [("+=", "+", "Add"); ("-=", "-", "Subtract"); ("*=", "*", "Multiply");
   ("/=", "/", "Divide"); ("^=", "^", "Raise To Power"); ("%=", "%", "Modulo")].

Definition is_number (n : node) : bool :=
  match n with
  | Number _ => true
  | _ => false
  end.



(** * Properties *)

(** ** The Python primitives on examples *)

Example title_ex : Py.title "round TO integer" = "Round To Integer".
Proof. reflexivity. Qed.

Example count_ex : Py.count ("a" ++ SEP ++ "b" ++ SEP ++ ";" ++ SEP) SEP = 3%nat.
Proof. reflexivity. Qed.

Example split_ex : Py.split ("a" ++ SEP ++ "b" ++ SEP) SEP = ["a"; "b"; ""].
Proof. reflexivity. Qed.

Example rstrip_ex : Py.rstrip SEP ("a" ++ SEP ++ "b;" ++ SEP ++ LF) = "a" ++ SEP ++ "b".
Proof. reflexivity. Qed.

Example int_ex : Py.int " -1_0 " = Val (-10) /\ Py.int "2.0" = Exc ValueError.
Proof. split; reflexivity. Qed.

Example format_ex :
  Py.format1 "Skip({})" "4" = Val "Skip(4)"
  /\ Py.format1 "{0} of {{}}" "4" = Val "4 of {}"
  /\ Py.format1 "{} and {}" "4" = Exc IndexError
  /\ Py.format1 "{1}" "4" = Exc IndexError
  /\ Py.format1 "{} and {0}" "4" = Exc ValueError
  /\ Py.format1 "{name}" "4" = Exc KeyError
  /\ Py.format1 "Skip({)" "4" = Exc ValueError
  /\ Py.format1 "Skip(})" "4" = Exc ValueError.
Proof. repeat split. Qed.

Example py_range_ex : py_range [1; 10; 4] = Val [1; 5; 9] /\ py_range [5; 0; -2] = Val [5; 3; 1].
Proof. split; reflexivity. Qed.

(** ** The transpiler on examples *)

Example time_ex :
  map (fun text => fst (visit (H := reference) 1 (Time text) (init 3)))
      ["500ms"; "16ms"; "2min"; "1.5s"; "3mins"; "5"]
  = [Ok "0.5"; Ok "0.016"; Ok "120.0"; Ok "1.5";
     Raise (Errors.Builtin ValueError); Raise (Errors.Builtin TypeError)].
Proof. reflexivity. Qed.

Example counter_script_run :
  fst (run (H := reference) 8 counter_script)
  = Ok ("rule(" ++ DQ ++ "Generated by https://github.com/adapap/OWScript" ++ DQ
        ++ ") { Event { Ongoing - Global; }}" ++ LF
        ++ "rule(" ++ DQ ++ "count" ++ DQ ++ ") {" ++ LF
        ++ "Actions {" ++ LF
        ++ "   Set Global Variable At Index(A, 0, 0)" ++ SEP
        ++ "   Skip If(Not(Compare(Value In Array(Global Variable(A), 0), <, 5)), 3)" ++ SEP
        ++ "      Set Global Variable At Index(A, 0, Add(Value In Array(Global Variable(A), 0), 1))" ++ SEP
        ++ "      Wait(0.016, Ignore Condition)" ++ SEP
        ++ "      Loop If(Compare(Value In Array(Global Variable(A), 0), <, 5))" ++ SEP
        ++ "}" ++ LF ++ "}").
Proof. reflexivity. Qed.

Example arity_function_script_run :
  fst (run (H := reference) 8 arity_function_script)
  = Raise (Errors.InvalidParameter "'f' expected 1 arguments, received 0").
Proof. reflexivity. Qed.

Example range_call_run :
  fst (visit (H := reference) 4 (Call (GlobalVar "gvar_range") [Number "1"; Number "4"])
         (init 3))
  = Ok "Append To Array(Append To Array(Append To Array(Empty Array, 1), 2), 3)".
Proof. reflexivity. Qed.

(** ** Fuel

    A result obtained with some fuel is the result for any larger fuel:
    every visitor method is monotone in the dispatcher it is given. *)

Lemma refines_refl {A} (m : M A) : refines m m.
Proof. now intros st r st' Hrun _. Qed.

Lemma refines_bind {A B} (m m' : M A) (k k' : A -> M B) :
  refines m m' -> (forall a, refines (k a) (k' a)) -> refines (bind m k) (bind m' k').
Proof.
  intros Hm Hk st r st'. unfold bind.
  destruct (m st) as [[a | e |] st1] eqn:Hrun; intros Hres Hfuel.
  - rewrite (Hm _ _ _ Hrun) by discriminate. now apply Hk.
  - rewrite (Hm _ _ _ Hrun) by discriminate. exact Hres.
  - congruence.
Qed.

Lemma refines_try_except {A} (m m' h h' : M A) E :
  refines m m' -> refines h h' -> refines (try_except m E h) (try_except m' E h').
Proof.
  intros Hm Hh st r st'. unfold try_except.
  destruct (m st) as [[a | e |] st1] eqn:Hrun; intros Hres Hfuel.
  - rewrite (Hm _ _ _ Hrun) by discriminate. exact Hres.
  - rewrite (Hm _ _ _ Hrun) by discriminate.
    destruct e; try exact Hres. destruct (pyexc_eqb e E); [now apply Hh | exact Hres].
  - congruence.
Qed.

Lemma refines_try_return {A} (m m' : M A) (h h' : node -> M A) :
  refines m m' -> (forall v, refines (h v) (h' v)) ->
  refines (try_return m h) (try_return m' h').
Proof.
  intros Hm Hh st r st'. unfold try_return.
  destruct (m st) as [[a | e |] st1] eqn:Hrun; intros Hres Hfuel.
  - rewrite (Hm _ _ _ Hrun) by discriminate. exact Hres.
  - rewrite (Hm _ _ _ Hrun) by discriminate.
    destruct e; try exact Hres. now apply Hh.
  - congruence.
Qed.

Lemma refines_with_child_scope {A} name ns (m m' : M A) :
  refines m m' -> refines (with_child_scope name ns m) (with_child_scope name ns m').
Proof.
  intros Hm st r st'. unfold with_child_scope.
  destruct (m (push_scope name ns st)) as [r1 st1] eqn:Hrun. intros Hres Hfuel.
  injection Hres as <- <-.
  now rewrite (Hm _ _ _ Hrun Hfuel).
Qed.

Lemma refines_traverse {A B} (f f' : A -> M B) (l : list A) :
  (forall x, refines (f x) (f' x)) -> refines (traverse f l) (traverse f' l).
Proof.
  intros Hf. induction l as [| x l IH]; [apply refines_refl |].
  simpl. apply refines_bind; [apply Hf |]. intros y.
  apply refines_bind; [exact IH |]. intros ys. apply refines_refl.
Qed.

Ltac mono_step :=
  lazymatch goal with
  | |- refines (bind _ _) (bind _ _) => apply refines_bind; [| intros ?]
  | |- refines (try_except _ _ _) (try_except _ _ _) => apply refines_try_except
  | |- refines (try_return _ _) (try_return _ _) => apply refines_try_return; [| intros ?]
  | |- refines (with_child_scope _ _ _) (with_child_scope _ _ _) =>
      apply refines_with_child_scope
  | |- refines (traverse _ _) (traverse _ _) => apply refines_traverse; intros ?
  | |- refines ?m ?m => apply refines_refl
  | |- refines (match ?x with _ => _ end) _ => destruct x
  end.

Section Mono.
Context `{Collaborators}.
Variables v v' : node -> M string.
Hypothesis Hv : forall n, refines (v n) (v' n).

Ltac mono := repeat (first [apply Hv | mono_step]).

Lemma visit_children_mono n : refines (visit_children v n) (visit_children v' n).
Proof. unfold visit_children. mono. Qed.

Lemma visit_lines_mono lines : forall code,
  refines (visit_lines v code lines) (visit_lines v' code lines).
Proof.
  induction lines as [| line r IH]; intros code; simpl; [apply refines_refl |].
  mono. apply IH.
Qed.

Lemma call_body_mono children : forall code,
  refines (call_body v code children) (call_body v' code children).
Proof.
  induction children as [| c r IH]; intros code; simpl; [apply refines_refl |].
  mono. apply IH.
Qed.

Lemma for_unroll_mono pointer body elements :
  refines (for_unroll v pointer body elements) (for_unroll v' pointer body elements).
Proof.
  induction elements as [| e r IH]; simpl; [apply refines_refl |].
  mono. unfold visit_children. mono. apply IH.
Qed.

Lemma check_args_cons (w : node -> M string) name index arg child r :
  check_args w name index ((Some arg, child) :: r)
  = if existsb (String.eqb "ANY") (flatten (get_values arg))
    then check_args w name (S index) r
    else bind (w child) (fun text =>
           if existsb (String.eqb (Py.upper text)) (flatten (get_values arg))
           then check_args w name (S index) r
           else raise (Errors.InvalidParameter
                         ("'" ++ name ++ "' expected type " ++ arg_name arg
                          ++ " for argument " ++ Py.str_of_nat (S index)
                          ++ ", received " ++ class_name child))).
Proof. reflexivity. Qed.

Lemma check_args_mono name pairs : forall index,
  refines (check_args v name index pairs) (check_args v' name index pairs).
Proof.
  induction pairs as [| [arg child] r IH]; intros index; [apply refines_refl |].
  destruct arg as [arg |]; [| apply IH].
  rewrite !check_args_cons.
  destruct (existsb (String.eqb "ANY") (flatten (get_values arg))); [apply IH |].
  mono. apply IH.
Qed.

Lemma ruleblock_lines_mono name lines :
  refines (ruleblock_lines v name lines) (ruleblock_lines v' name lines).
Proof.
  induction lines as [| l r IH]; simpl; [apply refines_refl |].
  unfold ruleblock_line. mono. exact IH.
Qed.

Lemma ruleblock_blocks_mono name blocks : forall code,
  refines (ruleblock_blocks v name code blocks) (ruleblock_blocks v' name code blocks).
Proof.
  induction blocks as [| b r IH]; intros code; simpl; [apply refines_refl |].
  mono. apply ruleblock_lines_mono. apply IH.
Qed.

Ltac mono_all :=
  repeat (first [ apply Hv | apply visit_lines_mono | apply call_body_mono
                | apply for_unroll_mono | apply check_args_mono
                | apply ruleblock_blocks_mono | mono_step ]).

Lemma dispatch_mono n : refines (dispatch v n) (dispatch v' n).
Proof.
  destruct n; unfold dispatch;
    unfold visitScript, visitRule, visitBlock, visitRuleblock, visitOWID, visitCompare,
      visitAssign, assign_code, assign_item, assign_index, visit_player,
      visitIf, visitWhile, visitFor, for_runtime, visitBinaryOp, visitUnaryOp,
      visitGlobalVar, visitPlayerVar, visitString, visitVector, visitArray,
      visitItem, visit_value, visitAttribute, visitCall, visit_children;
    mono_all.
Qed.
End Mono.

Lemma visit_step `{Collaborators} fuel : forall n, refines (visit fuel n) (visit (S fuel) n).
Proof.
  induction fuel as [| k IH]; intros n.
  - intros st r st' Hrun Hfuel. simpl in Hrun. congruence.
  - change (refines (dispatch (visit k) n) (dispatch (visit (S k)) n)).
    now apply dispatch_mono.
Qed.

Lemma visit_more_fuel `{Collaborators} fuel extra n st r st' :
  visit fuel n st = (r, st') -> r <> OutOfFuel -> visit (extra + fuel) n st = (r, st').
Proof.
  intros Hrun Hfuel. induction extra as [| k IH]; [exact Hrun |].
  now apply (visit_step (k + fuel)).
Qed.

(** ** Slot allocation *)


Lemma scope_assign_run name value i st :
  scope_assign name value i st = (Ok tt, bind_local name value i st).
Proof. reflexivity. Qed.

Lemma chain_get_bind_local name value i st :
  chain_get (scope_chain (bind_local name value i st)) name = Some (Var value i).
Proof.
  unfold scope_chain, bind_local. simpl.
  now rewrite lookup_insert_eq.
Qed.

Lemma chain_get_child (child : frame) (chain : list frame) (name : string) :
  namespace child !! name = None ->
  chain_get (child :: chain) name = chain_get chain name.
Proof. intros Hnone. simpl. now rewrite Hnone. Qed.

Lemma bind_local_counters name value i st :
  global_index (bind_local name value i st) = global_index st /\
  player_index (bind_local name value i st) = player_index st.
Proof. split; reflexivity. Qed.

Section Slots.
Context `{Collaborators}.
Variables (fuel : nat) (st : state).

Lemma assign_global_first name op right :
  chain_get (scope_chain st) name = None ->
  let g := global_index st in
  let value := assigned_value (GlobalVar name) op right in
  visit (S fuel) (Assign (GlobalVar name) op right) st =
  assign_code (visit fuel) name (SlotInt (Z.of_nat g)) value PlayerUnbound
    (bind_local name value (SlotInt (Z.of_nat g)) (set_global_index (S g) st)).
Proof.
  intros Hget g value. simpl.
  unfold visitAssign, bind, scope_get, gets. rewrite Hget. reflexivity.
Qed.

Lemma assign_player_first name player op right :
  chain_get (scope_chain st) name = None ->
  let g := player_index st in
  let value := assigned_value (PlayerVar name player) op right in
  visit (S fuel) (Assign (PlayerVar name player) op right) st =
  assign_code (visit fuel) name (SlotInt (Z.of_nat g)) value (PlayerNode player)
    (bind_local name value (SlotInt (Z.of_nat g)) (set_player_index (S g) st)).
Proof.
  intros Hget g value. simpl.
  unfold visitAssign, bind, scope_get, gets. rewrite Hget. reflexivity.
Qed.

Lemma assign_global_again name op right v i :
  chain_get (scope_chain st) name = Some (Var v i) ->
  let value := assigned_value (GlobalVar name) op right in
  visit (S fuel) (Assign (GlobalVar name) op right) st =
  assign_code (visit fuel) name i value PlayerUnbound (bind_local name value i st).
Proof.
  intros Hget value. simpl.
  unfold visitAssign, bind, scope_get, gets. rewrite Hget. reflexivity.
Qed.

Lemma assign_player_again name player op right v i :
  chain_get (scope_chain st) name = Some (Var v i) ->
  let value := assigned_value (PlayerVar name player) op right in
  visit (S fuel) (Assign (PlayerVar name player) op right) st =
  assign_code (visit fuel) name i value (PlayerNode player) (bind_local name value i st).
Proof.
  intros Hget value. simpl.
  unfold visitAssign, bind, scope_get, gets. rewrite Hget. reflexivity.
Qed.

Lemma read_global name v i :
  chain_get (scope_chain st) name = Some (Var v i) ->
  (forall text children, v <> StringLit text children) ->
  visit (S fuel) (GlobalVar name) st =
  (Ok ("Value In Array(Global Variable(A), " ++ slot_str i ++ ")"), st).
Proof.
  intros Hget Hstr. simpl.
  unfold visitGlobalVar, bind, scope_get, gets. rewrite Hget.
  destruct v; try reflexivity. now destruct (Hstr value children).
Qed.
Lemma read_global_string name text children i :
  chain_get (scope_chain st) name = Some (Var (StringLit text children) i) ->
  visit (S fuel) (GlobalVar name) st = (Ok text, st).
Proof.
  intros Hget. simpl.
  unfold visitGlobalVar, bind, scope_get, gets. now rewrite Hget.
Qed.

Lemma read_player name player v i p st' :
  chain_get (scope_chain st) name = Some (Var v i) ->
  (forall text children, v <> StringLit text children) ->
  visit fuel player st = (Ok p, st') ->
  visit (S fuel) (PlayerVar name player) st =
  (Ok ("Value In Array(Player Variable(" ++ p ++ ", A), " ++ slot_str i ++ ")"), st').
Proof.
  intros Hget Hstr Hplayer. simpl.
  unfold visitPlayerVar, bind, scope_get, gets. rewrite Hget.
  destruct v; try (rewrite Hplayer; reflexivity). now destruct (Hstr value children).
Qed.
End Slots.

(** One step of a plain assignment or read.  The first assignment to an
    unbound name draws the next index of the counter of its domain (the
    global counter for a [GlobalVar], the player counter for a [PlayerVar])
    and binds the name to it.  When the name is visible as a variable with
    index [i], in the scope itself or in any ancestor, an assignment to the
    name itself stores under [i], rebinds the name to [i] and draws from
    neither counter, and a read of the name whose value is not a [String]
    renders [i] (a read of a global leaves the state as it is, a read of a
    player variable lowers the player first); a read of a global bound to a
    [String] renders the text of the string.  A child scope that does not
    bind the name sees the binding of its ancestors.  Assignments to an
    element of the name are not covered: see [slot_follows_element_index]. *)
Lemma stable_slot `{Collaborators} (fuel : nat) (name op : string)
        (right player : node) (st : state) :
  (chain_get (scope_chain st) name = None ->
   let g := SlotInt (Z.of_nat (global_index st)) in
   let p := SlotInt (Z.of_nat (player_index st)) in
   let gvalue := assigned_value (GlobalVar name) op right in
   let pvalue := assigned_value (PlayerVar name player) op right in
   visit (S fuel) (Assign (GlobalVar name) op right) st =
     assign_code (visit fuel) name g gvalue PlayerUnbound
       (bind_local name gvalue g (set_global_index (S (global_index st)) st))
   /\ visit (S fuel) (Assign (PlayerVar name player) op right) st =
     assign_code (visit fuel) name p pvalue (PlayerNode player)
       (bind_local name pvalue p (set_player_index (S (player_index st)) st)))
  /\ (forall v i, chain_get (scope_chain st) name = Some (Var v i) ->
      let gvalue := assigned_value (GlobalVar name) op right in
      let pvalue := assigned_value (PlayerVar name player) op right in
      visit (S fuel) (Assign (GlobalVar name) op right) st =
        assign_code (visit fuel) name i gvalue PlayerUnbound (bind_local name gvalue i st)
      /\ visit (S fuel) (Assign (PlayerVar name player) op right) st =
        assign_code (visit fuel) name i pvalue (PlayerNode player) (bind_local name pvalue i st)
      /\ chain_get (scope_chain (bind_local name gvalue i st)) name = Some (Var gvalue i)
      /\ global_index (bind_local name gvalue i st) = global_index st
      /\ player_index (bind_local name pvalue i st) = player_index st
      /\ ((forall text children, v <> StringLit text children) ->
          visit (S fuel) (GlobalVar name) st =
            (Ok ("Value In Array(Global Variable(A), " ++ slot_str i ++ ")"), st))
      /\ (forall p st', (forall text children, v <> StringLit text children) ->
          visit fuel player st = (Ok p, st') ->
          visit (S fuel) (PlayerVar name player) st =
            (Ok ("Value In Array(Player Variable(" ++ p ++ ", A), " ++ slot_str i ++ ")"), st'))
      /\ (forall text children, v = StringLit text children ->
          visit (S fuel) (GlobalVar name) st = (Ok text, st)))
  /\ (forall child, namespace child !! name = None ->
      chain_get (child :: scope_chain st) name = chain_get (scope_chain st) name).
Proof.
  split; [| split].
  - intros Hnone. split.
    + now apply assign_global_first.
    + now apply assign_player_first.
  - intros v i Hsome gvalue pvalue.
    split; [now apply assign_global_again with (v := v) |].
    split; [now apply assign_player_again with (v := v) |].
    split; [apply chain_get_bind_local |].
    split; [reflexivity |].
    split; [reflexivity |].
    split; [intros Hstr; now apply read_global with (v := v) |].
    split.
    + intros p st' Hstr Hplayer. now apply read_player with (v := v).
    + intros text children ->. now apply read_global_string with (children := children) (i := i).
  - intros child Hchild. now apply chain_get_child.
Qed.

Lemma stable_slot_witness :
  let st0 := init 3 in
  let st1 := bind_local "gvar_x" (Number "1") (SlotInt 0) (set_global_index 1 st0) in
  let sum := BinaryOp (GlobalVar "gvar_x") "+" (Number "2") in
  chain_get (scope_chain st0) "gvar_x" = None
  /\ visit (H := reference) 3 (Assign (GlobalVar "gvar_x") "=" (Number "1")) st0
     = (Ok "Set Global Variable At Index(A, 0, 1)", st1)
  /\ chain_get (scope_chain st1) "gvar_x" = Some (Var (Number "1") (SlotInt 0))
  /\ visit (H := reference) 3 (Assign (GlobalVar "gvar_x") "+=" (Number "2")) st1
     = (Ok "Set Global Variable At Index(A, 0, Add(Value In Array(Global Variable(A), 0), 2))",
        bind_local "gvar_x" sum (SlotInt 0) st1)
  /\ visit (H := reference) 3 (GlobalVar "gvar_x") st1
     = (Ok "Value In Array(Global Variable(A), 0)", st1).
Proof.
  intros st0 st1 sum.
  assert (H0 : chain_get (scope_chain st0) "gvar_x" = None) by reflexivity.
  assert (H1 : chain_get (scope_chain st1) "gvar_x" = Some (Var (Number "1") (SlotInt 0)))
    by reflexivity.
  destruct (stable_slot (H := reference) 2 "gvar_x" "=" (Number "1") (Number "0") st0)
    as [First _].
  destruct (stable_slot (H := reference) 2 "gvar_x" "+=" (Number "2") (Number "0") st1)
    as [_ [Later _]].
  destruct (First H0) as [Hfirst _].
  destruct (Later _ _ H1) as (Hlater & _ & _ & _ & _ & Hread & _).
  split; [exact H0 |].
  split; [rewrite Hfirst; reflexivity |].
  split; [exact H1 |].
  split; [rewrite Hlater; reflexivity |].
  rewrite Hread; [reflexivity | discriminate].
Defined.

(** ** Array element assignment *)


Section ItemAssign.
Context `{Collaborators}.
Variables (fuel : nat) (st : state).

(** With a literal index [k] in range, element [k] alone is replaced and
    the whole array is stored again, under the index [k] of the element. *)
Lemma assign_item_literal name op right text k es es' i :
  chain_get (scope_chain st) name = Some (Var (Array es) i) ->
  Py.int text = Val k ->
  let left := Item (GlobalVar name) (Number text) in
  Py.setitem es k (assigned_value left op right) = Val es' ->
  visit (S (S fuel)) (Assign left op right) st =
  assign_code (visit (S fuel)) name (SlotInt k) (Array es') PlayerOther
    (bind_local name (Array es') (SlotInt k)
       (replace_found name (Var (Array es') i) st)).
Proof.
  intros Hget Hint left Hset.
  change (visit (S (S fuel)) (Assign left op right))
    with (visitAssign (visit (S fuel)) left op right).
  unfold visitAssign, left, bind, lift, name_of, ret, scope_get, gets.
  rewrite Hget.
  unfold try_except, assign_item, bind, lift.
  change (visit (S fuel) (Number text) st) with (Ok text, st).
  cbv beta iota. rewrite Hint. cbv beta iota.
  unfold binding_value, value_setitem, ret. cbv beta iota.
  fold left. rewrite Hset. reflexivity.
Qed.

(** An index whose rendering is not an integer literal is refused. *)
Lemma assign_item_not_literal parent index_node op right name text st' :
  name_of parent = Val name ->
  visit fuel index_node st = (Ok text, st') ->
  Py.int text = Exc ValueError ->
  visit (S fuel) (Assign (Item parent index_node) op right) st =
  (Raise (Errors.NotImplementedError "Array assignment only supports literal indices"), st').
Proof.
  intros Hname Hvisit Hint.
  change (visit (S fuel) (Assign (Item parent index_node) op right))
    with (visitAssign (visit fuel) (Item parent index_node) op right).
  unfold visitAssign, bind, lift. rewrite Hname.
  unfold ret, scope_get, gets, try_except, assign_item, bind, lift.
  rewrite Hvisit. rewrite Hint. reflexivity.
Qed.
End ItemAssign.

(** C2 (the code departs from it): [arr = [1, 2, 3]] puts [arr] in slot 0;
    [arr[2] = 9] then replaces element 2 only and stores the whole
    three-element array again, but under index 2, the element index, and
    rebinds [arr] to slot 2, instead of the slot 0 the name had. *)
Theorem element_assign_changes_slot `{Collaborators} :
  let literal := Array [Number "1"; Number "2"; Number "3"] in
  let st1 := bind_local "gvar_arr" literal (SlotInt 0) (set_global_index 1 (init 3)) in
  let updated := Array [Number "1"; Number "2"; Number "9"] in
  visit 3 (Assign (GlobalVar "gvar_arr") "=" literal) (init 3)
  = (Ok "Set Global Variable At Index(A, 0, Append To Array(Append To Array(Append To Array(Empty Array, 1), 2), 3))",
     st1)
  /\ visit 3
       (Assign (Item (GlobalVar "gvar_arr") (Number "2")) "=" (Number "9")) st1
  = (Ok "Set Global Variable At Index(A, 2, Append To Array(Append To Array(Append To Array(Empty Array, 1), 2), 9))",
     bind_local "gvar_arr" updated (SlotInt 2) st1)
  /\ visit 3 (GlobalVar "gvar_arr")
       (bind_local "gvar_arr" updated (SlotInt 2) st1)
  = (Ok "Value In Array(Global Variable(A), 2)",
     bind_local "gvar_arr" updated (SlotInt 2) st1).
Proof.
  intros literal st1 updated.
  split; [reflexivity |].
  split; [| reflexivity].
  unfold st1, literal, updated.
  rewrite (assign_item_literal 1 _ "gvar_arr" "=" (Number "9") "2" 2
             [Number "1"; Number "2"; Number "3"] [Number "1"; Number "2"; Number "9"]
             (SlotInt 0)); reflexivity.
Qed.

(** C1 (the code departs from it): a name does not keep one slot.
    [arr = [1, 2, 3]] draws slot 0 for [arr] and a read of [arr] renders
    slot 0.  After [arr[2] = 9] the same read renders slot 2, and the plain
    assignment [arr = 7] that follows stores under slot 2: the element
    assignment rebound the name to the index of the element.  No counter
    moved meanwhile, so the global counter still stands at 1 and hands out
    1 and then 2 to the next new names: [c] is given the slot [arr] now
    lives in.  This is the defect of the element branch of [visitAssign]
    that [element_assign_changes_slot] shows; the variable branches keep
    the index they find, as [stable_slot] states. *)
Theorem slot_follows_element_index `{Collaborators} :
  let arr := GlobalVar "gvar_arr" in
  let literal := Array [Number "1"; Number "2"; Number "3"] in
  let updated := Array [Number "1"; Number "2"; Number "9"] in
  let st1 := bind_local "gvar_arr" literal (SlotInt 0) (set_global_index 1 (init 3)) in
  let st2 := bind_local "gvar_arr" updated (SlotInt 2) st1 in
  let st3 := bind_local "gvar_arr" (Number "7") (SlotInt 2) st2 in
  let st4 := bind_local "gvar_b" (Number "0") (SlotInt 1) (set_global_index 2 st3) in
  let st5 := bind_local "gvar_c" (Number "0") (SlotInt 2) (set_global_index 3 st4) in
  snd (visit 3 (Assign arr "=" literal) (init 3)) = st1
  /\ visit 3 arr st1 = (Ok "Value In Array(Global Variable(A), 0)", st1)
  /\ snd (visit 3 (Assign (Item arr (Number "2")) "=" (Number "9")) st1) = st2
  /\ visit 3 arr st2 = (Ok "Value In Array(Global Variable(A), 2)", st2)
  /\ visit 3 (Assign arr "=" (Number "7")) st2
     = (Ok "Set Global Variable At Index(A, 2, 7)", st3)
  /\ global_index st3 = 1%nat
  /\ visit 3 (Assign (GlobalVar "gvar_b") "=" (Number "0")) st3
     = (Ok "Set Global Variable At Index(A, 1, 0)", st4)
  /\ visit 3 (Assign (GlobalVar "gvar_c") "=" (Number "0")) st4
     = (Ok "Set Global Variable At Index(A, 2, 0)", st5)
  /\ chain_get (scope_chain st5) "gvar_arr" = Some (Var (Number "7") (SlotInt 2))
  /\ chain_get (scope_chain st5) "gvar_c" = Some (Var (Number "0") (SlotInt 2)).
Proof.
  intros arr literal updated st1 st2 st3 st4 st5.
  split; [reflexivity |].
  split; [reflexivity |].
  split.
  - unfold st1, st2, arr, literal, updated.
    rewrite (assign_item_literal 1 _ "gvar_arr" "=" (Number "9") "2" 2
               [Number "1"; Number "2"; Number "3"] [Number "1"; Number "2"; Number "9"]
               (SlotInt 0)); reflexivity.
  - repeat (split; [reflexivity |]). reflexivity.
Qed.

(** ** Texts *)

Lemma append_assoc (a b c : string) : (a ++ b) ++ c = a ++ (b ++ c).
Proof. induction a as [| x a IH]; [reflexivity | exact (f_equal (String x) IH)]. Qed.

Lemma append_nil_r (a : string) : a ++ "" = a.
Proof. induction a as [| x a IH]; [reflexivity | exact (f_equal (String x) IH)]. Qed.

Lemma free_of_app c a b : free_of c (a ++ b) = free_of c a && free_of c b.
Proof.
  induction a as [| d a IH]; [reflexivity |].
  change (negb (Ascii.eqb d c) && free_of c (a ++ b)
          = negb (Ascii.eqb d c) && free_of c a && free_of c b).
  rewrite IH. now rewrite andb_assoc.
Qed.

Lemma prefix_SEP c r :
  String.prefix SEP (String c r)
  = Ascii.eqb c ";" && match r with String d _ => Ascii.eqb d "010" | EmptyString => false end.
Proof.
  change (String.prefix SEP (String c r))
    with (if ascii_dec ";" c then String.prefix LF r else false).
  destruct (Ascii.eqb_spec c ";") as [-> | Hne].
  - destruct (ascii_dec ";" ";") as [_ | Hbad]; [| congruence].
    destruct r as [| d r]; [reflexivity |].
    change (String.prefix LF (String d r))
      with (if ascii_dec "010" d then String.prefix "" r else false).
    destruct (Ascii.eqb_spec d "010") as [-> | Hne].
    + destruct (ascii_dec "010" "010") as [_ | Hbad]; [| congruence]. now destruct r.
    + destruct (ascii_dec "010" d) as [Heq | _]; [congruence | reflexivity].
  - destruct (ascii_dec ";" c) as [Heq | _]; [congruence | reflexivity].
Qed.

Lemma count_free s : free_of ";" s = true -> forall skip, Py.count_from SEP skip s = O.
Proof.
  induction s as [| c s IH]; intros Hfree skip; [reflexivity |].
  simpl in Hfree. apply andb_prop in Hfree as [Hc Hs].
  destruct skip as [| k].
  - change (Py.count_from SEP 0 (String c s))
      with (if String.prefix SEP (String c s)
            then S (Py.count_from SEP (Nat.pred (String.length SEP)) s)
            else Py.count_from SEP 0 s).
    rewrite prefix_SEP. apply negb_true_iff in Hc. rewrite Hc. simpl. now apply IH.
  - simpl. now apply IH.
Qed.

Lemma count_cons c r :
  Py.count_from SEP 0 (String c r)
  = if String.prefix SEP (String c r)
    then S (Py.count_from SEP 1 r) else Py.count_from SEP 0 r.
Proof. reflexivity. Qed.

Lemma count_skip c r : Py.count_from SEP 1 (String c r) = Py.count_from SEP 0 r.
Proof. reflexivity. Qed.

Lemma count_app_sep a b :
  Py.count (a ++ SEP ++ b) SEP = (Py.count a SEP + 1 + Py.count b SEP)%nat
  /\ forall c, Py.count (String c a ++ SEP ++ b) SEP
               = (Py.count (String c a) SEP + 1 + Py.count b SEP)%nat.
Proof.
  unfold Py.count.
  induction a as [| d a [IH IHc]].
  - split.
    + change ("" ++ SEP ++ b) with (String ";" (String "010" b)).
      rewrite count_cons, prefix_SEP. reflexivity.
    + intros c.
      change (String c "" ++ SEP ++ b) with (String c (String ";" (String "010" b))).
      rewrite !count_cons, !prefix_SEP.
      destruct (Ascii.eqb c ";"); reflexivity.
  - split; [apply IHc |].
    intros c.
    change (String c (String d a) ++ SEP ++ b) with (String c (String d (a ++ SEP ++ b))).
    rewrite (count_cons c (String d (a ++ SEP ++ b))), (count_cons c (String d a)), !prefix_SEP.
    destruct (Ascii.eqb c ";" && Ascii.eqb d "010").
    + rewrite !count_skip, IH. reflexivity.
    + change (String d (a ++ SEP ++ b)) with (String d a ++ SEP ++ b). apply IHc.
Qed.

Lemma count_join x xs :
  S (Py.count (Py.join SEP (x :: xs)) SEP)
  = list_sum (map (fun p => S (Py.count p SEP)) (x :: xs)).
Proof.
  revert x. induction xs as [| y ys IH]; intros x.
  - simpl. lia.
  - change (Py.join SEP (x :: y :: ys)) with (x ++ SEP ++ Py.join SEP (y :: ys)).
    rewrite (proj1 (count_app_sep x _)).
    change (list_sum (map (fun p => S (Py.count p SEP)) (x :: y :: ys)))
      with (S (Py.count x SEP) + list_sum (map (fun p => S (Py.count p SEP)) (y :: ys)))%nat.
    rewrite <- IH. lia.
Qed.

Lemma split_length sep s : forall skip cur,
  List.length (Py.split_from sep skip cur s) = S (Py.count_from sep skip s).
Proof.
  induction s as [| c s IH]; intros skip cur; [reflexivity |].
  destruct skip as [| k]; [| apply IH].
  change (List.length
            (if String.prefix sep (String c s)
             then cur :: Py.split_from sep (Nat.pred (String.length sep)) "" s
             else Py.split_from sep 0 (cur ++ String c "") s)
          = S (if String.prefix sep (String c s)
               then S (Py.count_from sep (Nat.pred (String.length sep)) s)
               else Py.count_from sep 0 s)).
  destruct (String.prefix sep (String c s)); [| apply IH].
  change (S (List.length (Py.split_from sep (Nat.pred (String.length sep)) "" s))
          = S (S (Py.count_from sep (Nat.pred (String.length sep)) s))).
  f_equal. apply IH.
Qed.

Lemma uint_free c d :
  In c [";"; "{"; "}"]%char -> free_of c (NilEmpty.string_of_uint d) = true.
Proof.
  intros Hc. induction d; simpl; try assumption; try reflexivity;
    destruct Hc as [<- | [<- | [<- | []]]]; assumption.
Qed.

Lemma str_of_nat_free c n :
  In c [";"; "{"; "}"]%char -> free_of c (Py.str_of_nat n) = true.
Proof.
  intros Hc. unfold Py.str_of_nat, Py.str_of_Z.
  destruct n as [| n]; [destruct Hc as [<- | [<- | [<- | []]]]; reflexivity |].
  simpl. unfold NilZero.string_of_uint.
  pose proof (uint_free c (Pos.to_uint (Pos.of_succ_nat n)) Hc) as Hfree.
  destruct (Pos.to_uint (Pos.of_succ_nat n)); try exact Hfree.
  destruct Hc as [<- | [<- | [<- | []]]]; reflexivity.
Qed.

Lemma format_from_plain arg mode c r :
  Ascii.eqb c "{" = false -> Ascii.eqb c "}" = false ->
  Py.format_from arg mode None (String c r) = Py.emit c (Py.format_from arg mode None r).
Proof.
  intros Hopen Hclose.
  change (Py.format_from arg mode None (String c r))
    with (if Ascii.eqb c "{" then
            match r with
            | String d r' =>
                if Ascii.eqb d "{" then Py.emit "{" (Py.format_from arg mode None r')
                else Py.format_from arg mode (Some EmptyString) r
            | EmptyString => Exc ValueError
            end
          else if Ascii.eqb c "}" then
            match r with
            | String d r' =>
                if Ascii.eqb d "}" then Py.emit "}" (Py.format_from arg mode None r')
                else Exc ValueError
            | EmptyString => Exc ValueError
            end
          else Py.emit c (Py.format_from arg mode None r)).
  now rewrite Hopen, Hclose.
Qed.

Lemma format_free arg pre rest mode :
  free_of "{" pre = true -> free_of "}" pre = true ->
  Py.format_from arg mode None (pre ++ rest)
  = Py.emit_text pre (Py.format_from arg mode None rest).
Proof.
  induction pre as [| c pre IH]; intros Hopen Hclose.
  - change ("" ++ rest) with rest.
    now destruct (Py.format_from arg mode None rest).
  - simpl in Hopen, Hclose.
    apply andb_prop in Hopen as [Hc1 Hopen], Hclose as [Hc2 Hclose].
    apply negb_true_iff in Hc1, Hc2.
    change (String c pre ++ rest) with (String c (pre ++ rest)).
    rewrite (format_from_plain arg mode c (pre ++ rest) Hc1 Hc2), (IH Hopen Hclose).
    now destruct (Py.format_from arg mode None rest).
Qed.

Lemma format_field arg pre post :
  free_of "{" pre = true -> free_of "}" pre = true ->
  free_of "{" post = true -> free_of "}" post = true ->
  Py.format1 (pre ++ "{}" ++ post) arg = Val (pre ++ arg ++ post).
Proof.
  intros H1 H2 H3 H4. unfold Py.format1.
  rewrite (format_free arg pre _ Py.Unnumbered H1 H2).
  change (Py.format_from arg Py.Unnumbered None ("{}" ++ post))
    with (Py.emit_text arg (Py.format_from arg Py.Automatic None post)).
  rewrite <- (append_nil_r post) at 1.
  rewrite (format_free arg post "" Py.Automatic H3 H4). simpl.
  now rewrite append_nil_r.
Qed.

Lemma count_join_cons xs :
  xs <> [] ->
  S (Py.count (Py.join SEP xs) SEP) = list_sum (map (fun p => S (Py.count p SEP)) xs).
Proof. destruct xs as [| x xs]; [congruence | intros _; apply count_join]. Qed.

Lemma separated_count text : separated text = S (Py.count text SEP).
Proof. apply split_length. Qed.


(** ** While *)


Lemma visit_lines_acc (v : node -> M string) (lines : list node) :
  forall code st,
    visit_lines v code lines st
    = outcome_map (fun body => code ++ body) (visit_lines v "" lines st).
Proof.
  induction lines as [| line rest IH]; intros code st; simpl.
  - unfold ret. simpl. now rewrite append_nil_r.
  - unfold bind, tabs, gets.
    destruct (v line st) as [[text | e |] st1]; try reflexivity.
    rewrite (IH (code ++ _)), (IH ("" ++ _)).
    destruct (visit_lines v "" rest st1) as [[body | e |] st2]; simpl; try reflexivity.
    now rewrite !append_assoc.
Qed.

Section While.
Context `{Collaborators}.

(** The text [visitWhile] emits, given the renderings of the condition
    and of the body lines.  The offset of the leading [Skip If] is the
    number of child nodes of the body plus two. *)
Lemma visitWhile_shape fuel cond_node body st c1 st1 text st2 c2 st3 :
  visit fuel cond_node st = (Ok c1, st1) ->
  visit_lines (visit fuel) "" (children_of body) st1 = (Ok text, st2) ->
  visit fuel cond_node st2 = (Ok c2, st3) ->
  visit (S fuel) (While cond_node body) st =
  (Ok ("Skip If(Not(" ++ c1 ++ "), "
       ++ Py.str_of_nat (List.length (children_of body) + 2) ++ ")" ++ SEP
       ++ text
       ++ tabs_of st2 ++ min_wait ++ SEP
       ++ tabs_of st2 ++ "Loop If(" ++ c2 ++ ")"), st3).
Proof.
  intros Hc1 Hbody Hc2.
  change (visit (S fuel) (While cond_node body))
    with (visitWhile (visit fuel) cond_node body).
  unfold visitWhile, bind. rewrite Hc1.
  rewrite visit_lines_acc, Hbody. simpl.
  unfold tabs, gets. rewrite Hc2. unfold ret.
  now rewrite !append_assoc.
Qed.
End While.


(** C3 (the code departs from it): a [while] whose body is another
    [while].  The inner loop lowers to four statements (its [Skip If], the
    assignment, the wait and its [Loop If]), so the offset that skips the
    body, the wait and the loop instruction of the outer loop is 6; the code
    emits 3, the number of body nodes plus two. *)
Theorem while_offset_counts_nodes `{Collaborators} :
  let x := GlobalVar "gvar_x" in
  let cond := Compare x "<" (Number "5") in
  let inner := While cond (Block [Assign x "=" (Number "1")]) in
  let st := bind_local "gvar_x" (Number "0") (SlotInt 0) (set_global_index 1 (init 3)) in
  let st' := bind_local "gvar_x" (Number "1") (SlotInt 0) st in
  let c := "Compare(Value In Array(Global Variable(A), 0), <, 5)" in
  let body := "Skip If(Not(" ++ c ++ "), 3)" ++ SEP
              ++ "Set Global Variable At Index(A, 0, 1)" ++ SEP
              ++ min_wait ++ SEP
              ++ "Loop If(" ++ c ++ ")" in
  visit_lines (visit 4) "" [inner] st = (Ok (body ++ SEP), st')
  /\ statements body = 4%nat
  /\ visit 5 (While cond (Block [inner])) st
  = (Ok ("Skip If(Not(" ++ c ++ "), 3)" ++ SEP
         ++ body ++ SEP
         ++ min_wait ++ SEP
         ++ "Loop If(" ++ c ++ ")"),
     st').
Proof.
  intros x cond inner st st' c body.
  split; [reflexivity |].
  split; [reflexivity |].
  rewrite (visitWhile_shape 4 cond (Block [inner]) st
             c st (body ++ SEP) st' c st');
    reflexivity.
Qed.

(** ** Inlined calls *)

(** A [Return] reached in a body statement is caught around that statement:
    the rendering of the returned expression takes the place of the
    statement, and the loop goes on with the statements that follow. *)
Lemma call_body_return (v : node -> M string) code child rest value text st st1 st2 :
  v child st = (Raise (Errors.ReturnError value), st1) ->
  v value st1 = (Ok text, st2) ->
  call_body v code (child :: rest) st = call_body v (code ++ text) rest st2.
Proof.
  intros Hchild Hvalue. simpl.
  unfold bind, try_return. now rewrite Hchild, Hvalue.
Qed.

(** When the body of the function is a single [Block], the [Return] ends
    the lowering of that block: the call renders the returned expression
    alone.  The statement before the [Return] has been lowered (a slot is
    drawn) but its text is dropped, and the indentation level that
    [visitBlock] raised is not restored. *)
Example return_ends_block `{Collaborators} :
  let f := Function "f" []
             [Block [Assign (GlobalVar "gvar_y") "=" (Number "3");
                     Return (Some (Number "1"));
                     Assign (GlobalVar "gvar_x") "=" (Number "2")]] in
  let st := bind_local "gvar_f" f SlotNone (init 3) in
  visit 5 (Call (GlobalVar "gvar_f") []) st
  = (Ok "1", set_indent_level 1 (set_global_index 1 st)).
Proof. reflexivity. Qed.

(** C4 (the code departs from it): the function [f] has the body
    [return 1; x = 2].  Inlining the call [f()] renders the returned
    expression and then still lowers the assignment that follows the
    [Return]: the text of the store instruction is emitted, a global slot is
    drawn for [x], and [x] is bound in the scope of the call. *)
Theorem return_does_not_halt_body `{Collaborators} :
  let f := Function "f" []
             [Return (Some (Number "1"));
              Assign (GlobalVar "gvar_x") "=" (Number "2")] in
  let st := bind_local "gvar_f" f SlotNone (init 3) in
  visit 2 f (init 3) = (Ok "", st)
  /\ visit 2 (Return (Some (Number "1"))) st
     = (Raise (Errors.ReturnError (Number "1")), st)
  /\ visit 4 (Call (GlobalVar "gvar_f") []) st
     = (Ok ("1" ++ "Set Global Variable At Index(A, 0, 2)"), set_global_index 1 st).
Proof.
  intros f st. repeat split.
Qed.

(** ** Constant folding *)


Section Folding.
Context `{Collaborators}.


Lemma visit_number fuel value st : visit (S fuel) (Number value) st = (Ok value, st).
Proof. reflexivity. Qed.
End Folding.



Example number_literal_ex :
  number_literal "0.25" = Some (25, -2)
  /\ number_literal "-12" = Some (-12, 0)
  /\ number_literal "1.5e-05" = Some (15, -6)
  /\ number_literal "3/2" = None
  /\ Qeq (decimal_Q 25 (-2)) (1 # 4).
Proof. repeat split. Qed.

(** Exact folding is what the reference arithmetic does where a literal
    for the result exists. *)
Example folds_exactly_ex : folds_exactly (H := reference) "6" "/" "3" (2 # 1).
Proof.
  exists 2%nat, (init 3), "2", (init 3), 2, 0. repeat split.
Qed.




(** ** If *)

(** C6 (the code departs from it): [if x < 5: x = 1; x = 3 else: x = 2].
    The true branch lowers to two statements and the false branch to one,
    so the claim's sequence is [Skip If(Not(cond), 3)], the two stores,
    [Skip(1)], the store of the false branch.  The code joins the lowered
    true-branch statements without a separator, so it counts no separator
    in them: it emits the offset 1, and the two stores and the [Skip] run
    together as one statement.  The false branch, whose lines are each
    followed by a separator, is counted as the claim says. *)
Theorem if_offset_misses_true_branch `{Collaborators} :
  let x := GlobalVar "gvar_x" in
  let cond := Compare x "<" (Number "5") in
  let st := bind_local "gvar_x" (Number "0") (SlotInt 0) (set_global_index 1 (init 3)) in
  let c := "Compare(Value In Array(Global Variable(A), 0), <, 5)" in
  let one := "Set Global Variable At Index(A, 0, 1)" in
  let three := "Set Global Variable At Index(A, 0, 3)" in
  let two := "Set Global Variable At Index(A, 0, 2)" in
  let true_block := Block [Assign x "=" (Number "1"); Assign x "=" (Number "3")] in
  let false_block := Block [Assign x "=" (Number "2")] in
  visit_children (visit 3) true_block st
  = (Ok [one; three], bind_local "gvar_x" (Number "3") (SlotInt 0) st)
  /\ (statements one + statements three)%nat = 2%nat
  /\ statements two = 1%nat
  /\ visit 4 (If cond true_block (Some false_block)) st
  = (Ok ("Skip If(Not(" ++ c ++ "), 1)" ++ SEP
         ++ one ++ three ++ "Skip(1)" ++ SEP
         ++ two ++ SEP),
     bind_local "gvar_x" (Number "2") (SlotInt 0) st).
Proof.
  intros x cond st c one three two true_block false_block.
  split; [reflexivity |].
  split; [reflexivity |].
  split; reflexivity.
Qed.

(** ** For over a collection of unknown size *)

Lemma for_block_count g parts :
  Py.count (for_block g parts) SEP = (list_sum (map separated parts) + 4)%nat.
Proof.
  assert (Hstep : Py.count (for_step g) SEP = 0%nat).
  { apply count_free. unfold for_step. rewrite !free_of_app, str_of_nat_free; [reflexivity |].
    simpl; auto. }
  assert (Hreset : Py.count (for_reset g) SEP = 1%nat).
  { unfold for_reset.
    replace ("Set Global Variable At Index(A, " ++ Py.str_of_nat g ++ ", 0)" ++ SEP)
      with (("Set Global Variable At Index(A, " ++ Py.str_of_nat g ++ ", 0)") ++ SEP ++ "")
      by (rewrite !append_assoc; reflexivity).
    rewrite (proj1 (count_app_sep _ "")).
    unfold Py.count at 1. rewrite count_free; [reflexivity |].
    rewrite !free_of_app, str_of_nat_free; [reflexivity |]. simpl; auto. }
  assert (Hsum : S (Py.count (for_block g parts) SEP)
                 = (list_sum (map separated parts) + 5)%nat).
  { unfold for_block. rewrite count_join_cons by (now destruct parts).
    rewrite map_app, list_sum_app. f_equal.
    - f_equal. apply map_ext. intros p. symmetry. apply separated_count.
    - simpl. rewrite Hstep, Hreset. reflexivity. }
  lia.
Qed.

Lemma for_skip_format it ptr offset :
  brace_free it = true -> brace_free ptr = true ->
  Py.format1 (for_skip it ptr) (Py.str_of_nat offset)
  = Val ("//FOR STARTSkip If(Compare(Count Of(" ++ it ++ "), ==, " ++ ptr ++ "), "
         ++ Py.str_of_nat offset ++ ")").
Proof.
  intros Hit Hptr.
  apply andb_prop in Hit as [Hit1 Hit2], Hptr as [Hptr1 Hptr2].
  unfold for_skip.
  replace ("//FOR STARTSkip If(Compare(Count Of(" ++ it ++ "), ==, " ++ ptr ++ "), {})")
    with (("//FOR STARTSkip If(Compare(Count Of(" ++ it ++ "), ==, " ++ ptr ++ "), ")
          ++ "{}" ++ ")")
    by (rewrite !append_assoc; reflexivity).
  rewrite format_field.
  - now rewrite !append_assoc.
  - now rewrite !free_of_app, Hit1, Hptr1.
  - now rewrite !free_of_app, Hit2, Hptr2.
  - reflexivity.
  - reflexivity.
Qed.

(** What the runtime branch of [visitFor] computes, for every body.  The
    lowering draws one index [g] from the global counter for the position
    counter and binds the loop variable to it, in a child scope, before
    anything is visited; it draws nothing else itself.  The offset it fills
    into the leading skip is the number of separators in the joined block:
    four more than the pieces [separated] cuts the lowered body lines into,
    where the empty piece after a separator that ends a line counts as one
    (see [for_offset_counts_empty_statement]). *)
Lemma for_runtime_offset `{Collaborators} (fuel : nat) (pointer iterable body : node)
        (st st2 st3 st4 : state) (name it ptr : string) (parts : list string) :
  known_elements iterable st = (Ok None, st) ->
  name_of pointer = Val name ->
  let g := global_index st in
  let st1 := bind_local name (Number "0") (SlotInt (Z.of_nat g))
               (set_global_index (S g) (push_scope "for" ∅ st)) in
  visit fuel iterable st1 = (Ok it, st2) ->
  visit fuel pointer st2 = (Ok ptr, st3) ->
  visit_children (visit fuel) body st3 = (Ok parts, st4) ->
  let offset := (list_sum (map separated parts) + 4)%nat in
  let st5 := pop_scope (set_curblock ((tabs_of st4 ++ for_continue g) :: curblock st4) st4) in
  visit (S fuel) (For pointer iterable body) st
  = match Py.format1 (for_skip it ptr) (Py.str_of_nat offset) with
    | Val skip => (Ok (for_reset g ++ skip ++ SEP ++ for_block g parts), st5)
    | Exc e => (Raise (Errors.Builtin e), pop_scope st4)
    end
  /\ (brace_free it = true -> brace_free ptr = true ->
      Py.format1 (for_skip it ptr) (Py.str_of_nat offset)
      = Val ("//FOR STARTSkip If(Compare(Count Of(" ++ it ++ "), ==, " ++ ptr ++ "), "
             ++ Py.str_of_nat offset ++ ")"))
  /\ offset = Py.count (for_block g parts) SEP
  /\ separated (for_block g parts) = S offset
  /\ chain_get (scope_chain st1) name = Some (Var (Number "0") (SlotInt (Z.of_nat g)))
  /\ global_index st1 = S (global_index st)
  /\ global_index st5 = global_index st4.
Proof.
  intros Hknown Hname g st1 Hit Hptr Hbody offset st5.
  split; [| split; [| split; [| split; [| split; [| split]]]]].
  - change (visit (S fuel) (For pointer iterable body))
      with (visitFor (visit fuel) pointer iterable body).
    unfold visitFor, bind. rewrite Hknown.
    unfold for_runtime, with_child_scope, bind, next_global_index.
    cbv beta iota. unfold lift at 1. rewrite Hname. unfold ret at 1.
    rewrite scope_assign_run.
    change (bind_local name (Number "0") (SlotInt (Z.of_nat (global_index (push_scope "for" ∅ st))))
              (set_global_index (S (global_index (push_scope "for" ∅ st))) (push_scope "for" ∅ st)))
      with st1.
    rewrite Hit, Hptr, Hbody.
    change (global_index (push_scope "for" ∅ st)) with g.
    rewrite for_block_count. fold offset.
    destruct (Py.format1 (for_skip it ptr) (Py.str_of_nat offset)) as [skip | e];
      reflexivity.
  - apply for_skip_format.
  - unfold offset. now rewrite for_block_count.
  - rewrite separated_count, for_block_count. reflexivity.
  - apply chain_get_bind_local.
  - reflexivity.
  - unfold st5, pop_scope. simpl. now destruct (parents st4).
Qed.

Lemma for_runtime_offset_witness :
  let x := GlobalVar "gvar_x" in
  let i := GlobalVar "gvar_i" in
  let cond := Compare x "<" (Number "5") in
  let body := Block [Assign x "=" i; While cond (Block [Assign x "+=" (Number "1")])] in
  let st := bind_local "gvar_x" (Number "0") (SlotInt 0) (set_global_index 1 (init 3)) in
  let c := "Compare(Value In Array(Global Variable(A), 0), <, 5)" in
  known_elements x st = (Ok None, st)
  /\ name_of i = Val "gvar_i"
  /\ brace_free "Value In Array(Global Variable(A), 0)" = true
  /\ brace_free "Value In Array(Global Variable(A), 1)" = true
  /\ fst (visit (H := reference) 6 (For i x body) st)
     = Ok ("Set Global Variable At Index(A, 1, 0)" ++ SEP
           ++ "//FOR STARTSkip If(Compare(Count Of(Value In Array(Global Variable(A), 0)), ==, "
           ++ "Value In Array(Global Variable(A), 1)), 9)" ++ SEP
           ++ "Set Global Variable At Index(A, 0, Value In Array(Global Variable(A), 1))" ++ SEP
           ++ "Skip If(Not(" ++ c ++ "), 3)" ++ SEP
           ++ "Set Global Variable At Index(A, 0, Add(Value In Array(Global Variable(A), 0), 1))" ++ SEP
           ++ min_wait ++ SEP
           ++ "Loop If(" ++ c ++ ")" ++ SEP
           ++ "Modify Global Variable At Index(A, 1, Add, 1)" ++ SEP
           ++ min_wait ++ SEP
           ++ "Loop" ++ SEP
           ++ "Set Global Variable At Index(A, 1, 0)" ++ SEP)
  /\ global_index (snd (visit (H := reference) 6 (For i x body) st)) = 2%nat.
Proof.
  intros x i cond body st c.
  set (st1 := bind_local "gvar_i" (Number "0") (SlotInt 1)
                (set_global_index 2 (push_scope "for" ∅ st))).
  set (st4 := snd (visit_children (visit (H := reference) 5) body st1)).
  set (parts := ["Set Global Variable At Index(A, 0, Value In Array(Global Variable(A), 1))";
                 "Skip If(Not(" ++ c ++ "), 3)" ++ SEP
                 ++ "Set Global Variable At Index(A, 0, Add(Value In Array(Global Variable(A), 0), 1))" ++ SEP
                 ++ min_wait ++ SEP
                 ++ "Loop If(" ++ c ++ ")"]).
  destruct (for_runtime_offset (H := reference) 5 i x body st st1 st1 st4 "gvar_i"
              "Value In Array(Global Variable(A), 0)"
              "Value In Array(Global Variable(A), 1)" parts
              eq_refl eq_refl eq_refl eq_refl eq_refl)
    as (Hrun & Hskip & _ & _ & _ & _ & Hcounter).
  split; [reflexivity |]. split; [reflexivity |].
  split; [reflexivity |]. split; [reflexivity |].
  rewrite Hrun, (Hskip eq_refl eq_refl).
  split; [reflexivity |].
  cbn [snd]. rewrite Hcounter. reflexivity.
Defined.

(** C7 (the code departs from it): a [for] over a collection of unknown
    size whose body is another such loop, [for i in x: for j in x: y = j],
    after [x = All Players].
    The outer lowering draws exactly one slot for its counter, as the claim
    says.  The lowered body is one line of seven statements (the inner
    loop: reset, skip, store, increment, wait, [Loop], reset), so the claim's
    offset is 7 + 4 = 11.  The line ends in a separator, and the code joins
    the body lines and the four trailing instructions with separators
    again: the emitted block has an empty statement after the body, and the
    offset, the number of separators in the block, is 12.  The inner loop,
    whose body line does not end in a separator, gets the offset 1 + 4 = 5
    the claim gives. *)
Theorem for_offset_counts_empty_statement `{Collaborators} :
  let x := GlobalVar "gvar_x" in
  let i := GlobalVar "gvar_i" in
  let j := GlobalVar "gvar_j" in
  let inner := For j x (Block [Assign (GlobalVar "gvar_y") "=" j]) in
  let outer := For i x (Block [inner]) in
  let st := bind_local "gvar_x" (OWID "all players" [] []) (SlotInt 0)
              (set_global_index 1 (init 3)) in
  let st1 := bind_local "gvar_i" (Number "0") (SlotInt 1)
               (set_global_index 2 (push_scope "for" ∅ st)) in
  let count_of := "//FOR STARTSkip If(Compare(Count Of(Value In Array(Global Variable(A), 0)), ==, " in
  let line := "Set Global Variable At Index(A, 2, 0)" ++ SEP
              ++ count_of ++ "Value In Array(Global Variable(A), 2)), 5)" ++ SEP
              ++ "Set Global Variable At Index(A, 3, Value In Array(Global Variable(A), 2))" ++ SEP
              ++ "Modify Global Variable At Index(A, 2, Add, 1)" ++ SEP
              ++ min_wait ++ SEP
              ++ "Loop" ++ SEP
              ++ "Set Global Variable At Index(A, 2, 0)" ++ SEP in
  let text := "Set Global Variable At Index(A, 1, 0)" ++ SEP
              ++ count_of ++ "Value In Array(Global Variable(A), 1)), 12)" ++ SEP
              ++ line ++ SEP
              ++ "Modify Global Variable At Index(A, 1, Add, 1)" ++ SEP
              ++ min_wait ++ SEP
              ++ "Loop" ++ SEP
              ++ "Set Global Variable At Index(A, 1, 0)" ++ SEP in
  visit 3 (Assign x "=" (OWID "all players" [] [])) (init 3)
  = (Ok "Set Global Variable At Index(A, 0, All Players())", st)
  /\ known_elements x st = (Ok None, st)
  /\ global_index st1 = S (global_index st)
  /\ fst (visit_children (visit 7) (Block [inner]) st1) = Ok [line]
  /\ statements line = 7%nat
  /\ fst (visit 8 outer st) = Ok text
  /\ nth_error (Py.split (Py.rstrip SEP text) SEP) 9 = Some ""
  /\ (List.length (Py.split (Py.rstrip SEP text) SEP) = 2 + 12)%nat.
Proof.
  intros x i j inner outer st st1 count_of line text.
  split; [reflexivity |].
  split; [reflexivity |].
  split; [reflexivity |].
  split; [reflexivity |].
  split; [reflexivity |].
  split; [reflexivity |].
  split; reflexivity.
Qed.

(** ** Builtins and calls *)

(** C8 (the code departs from it): both rounding builtins wrap the nodes
    unpacked from their second argument in a [Round To Integer] instruction
    and append a direction.  [ceil] appends [Up], as claimed; [floor], whose
    body is the same as that of [ceil], appends [Up] too, not [Down]. *)
Theorem floor_rounds_up `{Collaborators} (tp n : node) (ns : list node) :
  node_iter n = Val ns ->
  Builtin.ceil tp n
  = Val (OWID "Round To Integer" (owid_args "Round To Integer")
              (ns ++ [OWID "Up" (owid_args "Up") []]))
  /\ Builtin.floor tp n
  = Val (OWID "Round To Integer" (owid_args "Round To Integer")
              (ns ++ [OWID "Up" (owid_args "Up") []])).
Proof.
  intros Hiter. unfold Builtin.ceil, Builtin.floor. now rewrite Hiter.
Qed.

Lemma floor_rounds_up_witness :
  node_iter (Collaborators := reference) (Array [Number "2.5"]) = Val [Number "2.5"]
  /\ Builtin.floor (H := reference) (Number "0") (Array [Number "2.5"])
     = Val (OWID "Round To Integer" [] [Number "2.5"; OWID "Up" [] []]).
Proof.
  split; [reflexivity |].
  exact (proj2 (floor_rounds_up (H := reference) (Number "0") (Array [Number "2.5"])
                  [Number "2.5"] eq_refl)).
Defined.

Section Calls.
Context `{Collaborators}.

(** A user function called with the wrong number of arguments raises
    [InvalidParameter] before anything is inlined. *)
Lemma call_arity_error fuel st name f params children i args :
  chain_get (scope_chain st) name = Some (Var (Function f params children) i) ->
  List.length params <> List.length args ->
  visit (S fuel) (Call (GlobalVar name) args) st
  = (Raise (Errors.InvalidParameter
              ("'" ++ Py.drop 5 name ++ "' expected "
               ++ Py.str_of_nat (List.length params)
               ++ " arguments, received " ++ Py.str_of_nat (List.length args))), st).
Proof.
  intros Hget Hlen.
  change (visit (S fuel) (Call (GlobalVar name) args))
    with (visitCall (visit fuel) (Call (GlobalVar name) args) (GlobalVar name) args).
  unfold visitCall. simpl base_node. simpl name_of.
  unfold bind, lift, ret, scope_get, gets.
  rewrite Hget.
  apply Nat.eqb_neq in Hlen. rewrite Hlen. reflexivity.
Qed.
End Calls.

(** C9 (the code departs from it): the builtin [ceil] declares two
    parameters.  Called with one argument it raises [TypeError], which
    [visitCall] catches: the call renders as the empty text, a debugging
    line is printed, no error reaches the user, and the transpilation of the
    script goes on and returns its output. *)
Theorem builtin_arity_swallowed `{Collaborators} :
  let st := init 3 in
  let logged := snd (print "typeerror" st) in
  chain_get (scope_chain st) "gvar_ceil" = Some (Fn Bceil)
  /\ Builtin.call Bceil [Number "1"] = Exc TypeError
  /\ visit 2 (Call (GlobalVar "gvar_ceil") [Number "1"]) st = (Ok "", logged)
  /\ fst (run 8 arity_script)
     = Ok ("rule(" ++ DQ ++ "Generated by https://github.com/adapap/OWScript" ++ DQ
           ++ ") { Event { Ongoing - Global; }}" ++ LF
           ++ "rule(" ++ DQ ++ "demo" ++ DQ ++ ") {" ++ LF
           ++ "Actions {" ++ LF
           ++ "   Set Global Variable At Index(A, 0, 1)" ++ SEP
           ++ "}" ++ LF ++ "}").
Proof.
  intros st logged. repeat split.
Qed.

(** ** Array literals *)

Section Arrays.
Context `{Collaborators}.

Lemma visit_array_element fuel e st :
  visit (S fuel) (array_element e) st = render_element (visit (S fuel)) e st.
Proof. destruct e; reflexivity. Qed.

Lemma traverse_array_elements fuel es : forall st,
  traverse (visit (S fuel)) (map array_element es) st
  = traverse (render_element (visit (S fuel))) es st.
Proof.
  induction es as [| e es IH]; intros st; [reflexivity |].
  change (bind (visit (S fuel) (array_element e))
            (fun y => bind (traverse (visit (S fuel)) (map array_element es))
                        (fun ys => ret (y :: ys))) st
          = bind (render_element (visit (S fuel)) e)
              (fun y => bind (traverse (render_element (visit (S fuel))) es)
                          (fun ys => ret (y :: ys))) st).
  unfold bind. rewrite visit_array_element.
  destruct (render_element (visit (S fuel)) e st) as [[text | err |] st1]; try reflexivity.
  now rewrite IH.
Qed.

Lemma bind_ret_map {A B} (m : M A) (f : A -> B) st :
  bind m (fun a => ret (f a)) st = outcome_map f (m st).
Proof. unfold bind, outcome_map, ret. now destruct (m st) as [[a | e |] st1]. Qed.
End Arrays.

(** C10: the empty array literal renders as [Empty Array].  A non-empty
    one renders as one [Append To Array(] per element around
    [Empty Array], followed by the renderings of the elements in order,
    where each element that is a [String] or [Constant] node is rendered as
    [Null] and never visited, and every other element is rendered by its own
    visit; an error of such a visit is the result. *)
Theorem array_rendering `{Collaborators} (fuel : nat) (elements : list node) (st : state) :
  visit (S (S fuel)) (Array []) st = (Ok "Empty Array", st)
  /\ (elements <> [] ->
      visit (S (S fuel)) (Array elements) st
      = outcome_map (append_chain (List.length elements))
          (traverse (render_element (visit (S fuel))) elements st)).
Proof.
  split; [reflexivity |].
  intros Hne.
  change (visit (S (S fuel)) (Array elements)) with (visitArray (visit (S fuel)) elements).
  unfold visitArray.
  destruct elements as [| e es]; [congruence |].
  rewrite length_map.
  change (Nat.eqb (List.length (e :: es)) 0) with false. cbv iota.
  rewrite bind_ret_map. f_equal. apply traverse_array_elements.
Qed.

Lemma array_rendering_witness :
  let elements := [Number "1"; StringLit "hello" []; Constant "x"; GlobalVar "gvar_x"] in
  let st := bind_local "gvar_x" (Number "0") (SlotInt 0) (set_global_index 1 (init 3)) in
  elements <> []
  /\ visit (H := reference) 3 (Array elements) st
     = (Ok "Append To Array(Append To Array(Append To Array(Append To Array(Empty Array, 1), Null), Null), Value In Array(Global Variable(A), 0))",
        st).
Proof.
  intros elements st. split; [discriminate |].
  rewrite (proj2 (array_rendering (H := reference) 1 elements st)); [reflexivity | discriminate].
Defined.

(** * Invariants and further properties *)

Lemma extends_refl st : extends st st.
Proof. constructor; auto. Qed.

Lemma extends_trans st1 st2 st3 : extends st1 st2 -> extends st2 st3 -> extends st1 st3.
Proof.
  intros [a1 b1 c1 d1 e1] [a2 b2 c2 d2 e2]. constructor; try congruence; try lia; auto.
Qed.

Lemma keeps_ret {A} (a : A) : keeps (ret a).
Proof. intros st r st' [= <- <-]. apply extends_refl. Qed.

Lemma keeps_raise {A} e : keeps (@raise A e).
Proof. intros st r st' [= <- <-]. apply extends_refl. Qed.

Lemma keeps_lift {A} (x : pyres A) : keeps (lift x).
Proof. destruct x; [apply keeps_ret | apply keeps_raise]. Qed.

Lemma lift_ok {A} (x : pyres A) st a st' :
  lift x st = (Ok a, st') -> x = Val a /\ st' = st.
Proof. destruct x; unfold lift, ret, py_raise, raise; intros [=]; subst; auto. Qed.

Lemma keeps_gets {A} (f : state -> A) : keeps (gets f).
Proof. intros st r st' [= <- <-]. apply extends_refl. Qed.

Lemma keeps_modify (f : state -> state) : (forall st, extends st (f st)) -> keeps (modify f).
Proof. intros Hf st r st' [= <- <-]. apply Hf. Qed.

Lemma keeps_at_bind {A B} st (m : M A) (k : A -> M B) :
  keeps_at st m ->
  (forall a st1, m st = (Ok a, st1) -> keeps_at st1 (k a)) ->
  keeps_at st (bind m k).
Proof.
  unfold keeps_at. intros Hm Hk r st'. unfold bind.
  destruct (m st) as [[a | e |] st1] eqn:Hrun; intros Hres.
  - apply (extends_trans st st1 st'); [eapply Hm; first [eassumption | reflexivity] | eapply Hk; first [eassumption | reflexivity]].
  - injection Hres as <- <-. eapply Hm; first [eassumption | reflexivity].
  - injection Hres as <- <-. eapply Hm; first [eassumption | reflexivity].
Qed.

Lemma keeps_bind {A B} (m : M A) (k : A -> M B) :
  keeps m -> (forall a, keeps (k a)) -> keeps (bind m k).
Proof. intros Hm Hk st. apply keeps_at_bind; [apply Hm | intros; apply Hk]. Qed.

Lemma keeps_at_try_except {A} st (m h : M A) E :
  keeps_at st m -> (forall st1, extends st st1 -> keeps_at st1 h) ->
  keeps_at st (try_except m E h).
Proof.
  unfold keeps_at. intros Hm Hh r st'. unfold try_except.
  destruct (m st) as [[a | e |] st1] eqn:Hrun; intros Hres;
    try (injection Hres as <- <-; eapply Hm; first [eassumption | reflexivity]).
  destruct e; try (injection Hres as <- <-; eapply Hm; first [eassumption | reflexivity]).
  destruct (pyexc_eqb e E).
  - apply (extends_trans st st1 st'); [eapply Hm; first [eassumption | reflexivity] |].
    eapply Hh; [eapply Hm; first [eassumption | reflexivity] | exact Hres].
  - injection Hres as <- <-. eapply Hm; first [eassumption | reflexivity].
Qed.

Lemma keeps_try_except {A} (m h : M A) E : keeps m -> keeps h -> keeps (try_except m E h).
Proof. intros Hm Hh st. apply keeps_at_try_except; [apply Hm | intros; apply Hh]. Qed.

Lemma keeps_try_return {A} (m : M A) (h : node -> M A) :
  keeps m -> (forall v, keeps (h v)) -> keeps (try_return m h).
Proof.
  unfold keeps, keeps_at. intros Hm Hh st r st'. unfold try_return.
  destruct (m st) as [[a | e |] st1] eqn:Hrun; intros Hres;
    try (injection Hres as <- <-; eapply Hm; first [eassumption | reflexivity]).
  destruct e; try (injection Hres as <- <-; eapply Hm; first [eassumption | reflexivity]).
  apply (extends_trans st st1 st'); [eapply Hm; first [eassumption | reflexivity] | eapply Hh; first [eassumption | reflexivity]].
Qed.

Lemma keeps_traverse {A B} (f : A -> M B) (l : list A) :
  (forall x, keeps (f x)) -> keeps (traverse f l).
Proof.
  intros Hf. induction l as [| x l IH]; [apply keeps_ret |].
  change (keeps (bind (f x) (fun y => bind (traverse f l) (fun ys => ret (y :: ys))))).
  apply keeps_bind; [apply Hf |]. intros y.
  apply keeps_bind; [exact IH |]. intros ys. apply keeps_ret.
Qed.

Lemma frame_slots_names (f g : frame) name :
  frame_slots f = frame_slots g ->
  is_Some (namespace f !! name) -> is_Some (namespace g !! name).
Proof.
  unfold frame_slots. intros Heq [b Hb].
  assert (Hf : (slot_of <$> namespace f) !! name = Some (slot_of b))
    by (now rewrite lookup_fmap, Hb).
  rewrite Heq, lookup_fmap in Hf.
  destruct (namespace g !! name); [eauto | discriminate].
Qed.

Lemma keeps_with_child_scope {A} name ns (m : M A) :
  keeps m -> keeps (with_child_scope name ns m).
Proof.
  unfold keeps, keeps_at. intros Hm st r st'. unfold with_child_scope.
  destruct (m (push_scope name ns st)) as [r1 st1] eqn:Hrun. intros [= <- <-].
  destruct (Hm _ _ _ Hrun) as [Hi Hg Hp Hpar Hnames].
  simpl in Hi, Hg, Hp, Hpar.
  unfold pop_scope. destruct (parents st1) as [| p ps]; [discriminate |].
  simpl in Hpar. injection Hpar as Hp0 Hps.
  constructor; simpl; auto.
  intros x Hx. eapply frame_slots_names; [symmetry; exact Hp0 | exact Hx].
Qed.

Lemma keeps_scope_assign name value i : keeps (scope_assign name value i).
Proof.
  apply keeps_modify. intros st. constructor; simpl; auto.
  intros x [b Hb]. destruct (decide (name = x)) as [-> | Hne].
  - rewrite lookup_insert_eq. eauto.
  - rewrite lookup_insert_ne by exact Hne. eauto.
Qed.

Lemma keeps_next_global_index : keeps next_global_index.
Proof. intros st r st' [= <- <-]. constructor; simpl; auto with lia. Qed.

Lemma keeps_next_player_index : keeps next_player_index.
Proof. intros st r st' [= <- <-]. constructor; simpl; auto with lia. Qed.

Lemma keeps_print line : keeps (print line).
Proof. apply keeps_modify. intros st. constructor; simpl; auto. Qed.

Lemma keeps_set_indent_level (f : state -> Z) :
  keeps (modify (fun st => set_indent_level (f st) st)).
Proof. apply keeps_modify. intros st. constructor; simpl; auto. Qed.

Lemma keeps_set_curblock (f : state -> list string) :
  keeps (modify (fun st => set_curblock (f st) st)).
Proof. apply keeps_modify. intros st. constructor; simpl; auto. Qed.

Lemma keeps_resolve_skips : keeps resolve_skips.
Proof.
  unfold resolve_skips. apply keeps_bind; [apply keeps_gets |]. intros lines.
  destruct (scan_markers 0 lines) as [[lines' skips] skip_to].
  apply keeps_bind; [apply (keeps_set_curblock (fun _ => lines')) |]. intros _.
  apply keeps_bind; [apply keeps_lift |]. intros patched.
  apply (keeps_set_curblock (fun _ => patched)).
Qed.

Lemma slot_of_with_value b v : slot_of (binding_with_value b v) = slot_of b.
Proof. destruct b as [v0 i | n | f]; try reflexivity. now destruct n. Qed.

Lemma frame_slots_assign_same name b' f b1 :
  namespace f !! name = Some b1 -> slot_of b' = slot_of b1 ->
  frame_slots (frame_assign name b' f) = frame_slots f.
Proof.
  intros Hlook Hslot. unfold frame_slots, frame_assign. simpl.
  rewrite fmap_insert. apply insert_id. now rewrite lookup_fmap, Hlook, Hslot.
Qed.

Lemma chain_replace_slots name b b' : forall c1 c,
  chain_slots c1 = chain_slots c ->
  chain_get c name = Some b ->
  slot_of b' = slot_of b ->
  chain_slots (chain_replace c1 name b') = chain_slots c1.
Proof.
  induction c1 as [| f1 r1 IH]; intros [| f r] Heq Hget Hslot; try discriminate.
  simpl in Heq. injection Heq as Hf Hr. simpl in Hget.
  assert (Hlook : (slot_of <$> namespace f1) !! name = (slot_of <$> namespace f) !! name)
    by (unfold frame_slots in Hf; now rewrite Hf).
  rewrite !lookup_fmap in Hlook. simpl.
  destruct (namespace f !! name) as [b0 |] eqn:Hb0.
  - injection Hget as ->.
    destruct (namespace f1 !! name) as [b1 |] eqn:Hb1; [| discriminate].
    simpl in Hlook. injection Hlook as Hlook. simpl. f_equal.
    apply (frame_slots_assign_same name b' f1 b1); congruence.
  - destruct (namespace f1 !! name) as [b1 |] eqn:Hb1; [discriminate |].
    simpl. f_equal. now apply (IH r).
Qed.

Lemma replace_extends st st1 name b b' :
  extends st st1 ->
  chain_get (scope_chain st) name = Some b ->
  slot_of b' = slot_of b ->
  keeps_at st1 (scope_replace name b').
Proof.
  intros [Hi Hg Hp Hpar Hnames] Hget Hslot r st2 [= <- <-].
  unfold scope_chain in *. simpl in *.
  destruct (namespace (scope st1) !! name) as [b1 |] eqn:Hb1.
  - constructor; simpl; auto.
    intros x [bx Hx]. destruct (decide (name = x)) as [-> | Hne].
    + rewrite lookup_insert_eq. eauto.
    + rewrite lookup_insert_ne by exact Hne. eauto.
  - destruct (namespace (scope st) !! name) as [b0 |] eqn:Hb0.
    + destruct (Hnames name) as [bx Hbx]; [eauto | congruence].
    + constructor; simpl; auto.
      apply (chain_replace_slots name b b' (parents st1) (parents st)); assumption.
Qed.

Ltac keep_step :=
  lazymatch goal with
  | |- keeps (bind _ _) => apply keeps_bind; [| intros ?]
  | |- keeps (ret _) => apply keeps_ret
  | |- keeps (raise _) => apply keeps_raise
  | |- keeps (py_raise _) => apply keeps_raise
  | |- keeps (lift _) => apply keeps_lift
  | |- keeps (gets _) => apply keeps_gets
  | |- keeps tabs => apply keeps_gets
  | |- keeps (scope_get _) => apply keeps_gets
  | |- keeps (scope_assign _ _ _) => apply keeps_scope_assign
  | |- keeps next_global_index => apply keeps_next_global_index
  | |- keeps next_player_index => apply keeps_next_player_index
  | |- keeps (print _) => apply keeps_print
  | |- keeps resolve_skips => apply keeps_resolve_skips
  | |- keeps (modify (fun st => set_indent_level _ st)) =>
      apply (keeps_set_indent_level _)
  | |- keeps (modify (fun st => set_curblock _ st)) =>
      apply (keeps_set_curblock _)
  | |- keeps (modify (set_curblock ?l)) => apply (keeps_set_curblock (fun _ => l))
  | |- keeps (try_except _ _ _) => apply keeps_try_except
  | |- keeps (try_return _ _) => apply keeps_try_return; [| intros ?]
  | |- keeps (with_child_scope _ _ _) => apply keeps_with_child_scope
  | |- keeps (traverse _ _) => apply keeps_traverse; intros ?
  | |- keeps (match ?x with _ => _ end) => destruct x
  end.

Section Keeps.
Context `{Collaborators}.
Variable v : node -> M string.
Hypothesis Hv : forall n, keeps (v n).

Ltac keep := repeat (first [apply Hv | keep_step]).

Lemma keeps_visit_lines lines : forall code, keeps (visit_lines v code lines).
Proof.
  induction lines as [| line r IH]; intros code; [apply keeps_ret |].
  change (keeps (bind tabs (fun t => bind (v line) (fun text =>
            visit_lines v (code ++ t ++ text ++ SEP) r)))).
  keep. apply IH.
Qed.

Lemma keeps_call_body children : forall code, keeps (call_body v code children).
Proof.
  induction children as [| c r IH]; intros code; [apply keeps_ret |].
  change (keeps (bind (try_return (v c) (fun value => v value))
                   (fun text => call_body v (code ++ text) r))).
  keep. apply IH.
Qed.

Lemma keeps_for_unroll pointer body elements : keeps (for_unroll v pointer body elements).
Proof.
  induction elements as [| e r IH]; [apply keeps_ret |].
  change (keeps (with_child_scope "for" ∅
            (bind (lift (name_of pointer)) (fun name =>
             bind (scope_assign name e SlotNone) (fun _ =>
             bind (visit_children v body) (fun parts =>
             bind (for_unroll v pointer body r) (fun rest =>
             ret (Py.join SEP parts :: rest)))))))).
  unfold visit_children. keep. exact IH.
Qed.

Lemma keeps_check_args name pairs : forall index, keeps (check_args v name index pairs).
Proof.
  induction pairs as [| [arg child] r IH]; intros index; [apply keeps_ret |].
  destruct arg as [arg |]; [| apply IH].
  rewrite check_args_cons.
  keep; apply IH.
Qed.

Lemma keeps_ruleblock_lines name lines : keeps (ruleblock_lines v name lines).
Proof.
  induction lines as [| l r IH]; [apply keeps_ret |].
  change (keeps (bind (ruleblock_line v name l) (fun _ => ruleblock_lines v name r))).
  unfold ruleblock_line. keep. exact IH.
Qed.

Lemma keeps_ruleblock_blocks name blocks : forall code,
  keeps (ruleblock_blocks v name code blocks).
Proof.
  induction blocks as [| b r IH]; intros code; [apply keeps_ret |].
  change (keeps (bind (modify (set_curblock [])) (fun _ =>
            bind (ruleblock_lines v name (children_of b)) (fun _ =>
            bind resolve_skips (fun _ =>
            bind (gets curblock) (fun lines =>
            ruleblock_blocks v name (code ++ Py.join SEP lines) r)))))).
  keep. apply keeps_ruleblock_lines. apply IH.
Qed.

Lemma keeps_assign_code name index value player :
  keeps (assign_code v name index value player).
Proof. unfold assign_code, visit_player. keep. Qed.

Lemma keeps_at_assign_item st name index_node value :
  keeps_at st (assign_item v name (chain_get (scope_chain st) name) index_node value).
Proof.
  unfold assign_item.
  apply keeps_at_bind; [apply Hv |]. intros text st1 Hrun.
  pose proof (Hv _ _ _ _ Hrun) as Hext.
  apply keeps_at_bind; [apply keeps_lift |]. intros index st2 Hint.
  apply lift_ok in Hint as [_ ->].
  destruct (chain_get (scope_chain st) name) as [b |] eqn:Hget; [| apply keeps_raise].
  apply keeps_at_bind; [apply keeps_lift |]. intros vv st3 Hvv.
  apply lift_ok in Hvv as [_ ->].
  apply keeps_at_bind; [apply keeps_lift |]. intros array st4 Harr.
  apply lift_ok in Harr as [_ ->].
  apply keeps_at_bind.
  - apply (replace_extends st st1 name b); [exact Hext | exact Hget |].
    apply slot_of_with_value.
  - intros _ st5 _. apply keeps_ret.
Qed.

Lemma keeps_visitAssign left op right : keeps (visitAssign v left op right).
Proof.
  unfold visitAssign.
  destruct left; try apply keeps_raise.
  - unfold assign_index. keep. apply keeps_assign_code.
  - unfold assign_index. keep. apply keeps_assign_code.
  - apply keeps_bind; [apply keeps_lift |]. intros name st.
    apply keeps_at_bind; [apply keeps_gets |]. intros var st1 [= <- <-].
    apply keeps_at_bind.
    + apply keeps_at_try_except; [apply keeps_at_assign_item |].
      intros st1 _. apply keeps_raise.
    + intros [index array] st1 _.
      assert (Hrest : keeps (bind (match left1 with
                                   | PlayerVar _ player => bind (v player) (fun _ => ret tt)
                                   | _ => ret tt
                                   end)
                 (fun _ => bind (scope_assign name array (SlotInt index))
                 (fun _ => assign_code v name (SlotInt index) array PlayerOther)))).
      { keep; apply keeps_assign_code. }
      apply Hrest.
Qed.

Ltac keep_all :=
  repeat (first [ apply Hv | apply keeps_visit_lines | apply keeps_call_body
                | apply keeps_for_unroll | apply keeps_check_args
                | apply keeps_ruleblock_blocks | apply keeps_assign_code
                | keep_step ]).

Lemma keeps_dispatch n : keeps (dispatch v n).
Proof.
  destruct n; unfold dispatch; try apply keeps_visitAssign;
    unfold visitScript, visitRule, visitFunction, visitBlock, visitRuleblock, visitOWID,
      visitCompare, visitIf, visitWhile, visitFor, known_elements, for_runtime,
      visitBinaryOp, visitUnaryOp, visitGlobalVar, visitPlayerVar, visitString,
      visitNumber, visitTime, visitConstant, visitReturn,
      visitVector, visitArray, visitItem, visit_value, visitAttribute, visitCall,
      read_local, visit_children;
    keep_all.
Qed.
End Keeps.

Theorem visit_extends_all `{Collaborators} (fuel : nat) : forall n, keeps (visit fuel n).
Proof.
  induction fuel as [| k IH]; intros n.
  - intros st r st' [= <- <-]. apply extends_refl.
  - apply (keeps_dispatch (visit k) IH).
Qed.

(** ** What every visit keeps *)

(** X1: the two slot counters never go down: whatever node is visited and
    however the visit ends, the global and the player counter it leaves are
    at least what they were, so an index that was handed out is never
    handed out again. *)
Theorem counters_never_decrease `{Collaborators} (fuel : nat) (n : node) (st : state) :
  (global_index st <= global_index (snd (visit fuel n st)))%nat
  /\ (player_index st <= player_index (snd (visit fuel n st)))%nat.
Proof.
  destruct (visit fuel n st) as [r st'] eqn:Hrun.
  destruct (visit_extends_all fuel n st r st' Hrun) as [_ Hg Hp _ _]. now split.
Qed.

(** X2: no visit, whatever its outcome, changes the scopes that enclose the
    one it runs in: their number, the names each binds and the slot of
    every name stay as they were.  The scope itself never loses a name, and
    the indentation unit is never changed. *)
Theorem enclosing_scopes_unchanged `{Collaborators} (fuel : nat) (n : node) (st : state) :
  let st' := snd (visit fuel n st) in
  chain_slots (parents st') = chain_slots (parents st)
  /\ List.length (parents st') = List.length (parents st)
  /\ (forall name, is_Some (namespace (scope st) !! name) ->
                   is_Some (namespace (scope st') !! name))
  /\ indent_size st' = indent_size st.
Proof.
  simpl. destruct (visit fuel n st) as [r st'] eqn:Hrun.
  destruct (visit_extends_all fuel n st r st' Hrun) as [Hi _ _ Hpar Hnames].
  simpl. repeat split; auto.
  apply (f_equal (@List.length _)) in Hpar. unfold chain_slots in Hpar.
  now rewrite !length_map in Hpar.
Qed.

Lemma enclosing_scopes_unchanged_witness :
  let st := bind_local "gvar_y" (Number "0") (SlotInt 0)
              (push_scope "f" ∅ (set_global_index 1 (init 3))) in
  let st' := snd (visit (H := reference) 3 (Assign (GlobalVar "gvar_x") "=" (Number "1")) st) in
  is_Some (namespace (scope st) !! "gvar_y")
  /\ is_Some (namespace (scope st') !! "gvar_y")
  /\ chain_slots (parents st') = chain_slots (parents st).
Proof.
  intros st st'.
  assert (Hy : is_Some (namespace (scope st) !! "gvar_y")) by (eexists; reflexivity).
  split; [exact Hy |].
  pose proof (enclosing_scopes_unchanged (H := reference) 3
                (Assign (GlobalVar "gvar_x") "=" (Number "1")) st) as (Hpar & _ & Hnames & _).
  split; [exact (Hnames "gvar_y" Hy) | exact Hpar].
Defined.

Lemma with_child_scope_restores {A} name ns (m : M A) st :
  keeps m ->
  chain_slots (scope_chain (snd (with_child_scope name ns m st)))
  = chain_slots (scope_chain st).
Proof.
  intros Hm. unfold with_child_scope.
  destruct (m (push_scope name ns st)) as [r st1] eqn:Hrun.
  destruct (Hm _ _ _ Hrun) as [_ _ _ Hpar _]. simpl in Hpar.
  unfold pop_scope. destruct (parents st1) as [| p ps]; [discriminate |].
  exact Hpar.
Qed.

Lemma known_elements_state `{Collaborators} iterable st :
  snd (known_elements iterable st) = st.
Proof.
  unfold known_elements, bind, scope_get, gets.
  destruct iterable; try reflexivity;
    (destruct (chain_get (scope_chain st) name) as [b |]; [| reflexivity];
     unfold lift; destruct (binding_value b) as [[[] | |] |]; reflexivity).
Qed.

(** X3: a [for] loop, unrolled or not, leaves the scope it runs in as it
    found it: the loop variable and every name assigned in the body are
    bound in scopes of the loop's own, and after the loop each scope of the
    chain binds the names and slots it bound before. *)
Theorem for_restores_scope `{Collaborators} (fuel : nat) (pointer iterable body : node)
        (st : state) :
  chain_slots (scope_chain (snd (visit fuel (For pointer iterable body) st)))
  = chain_slots (scope_chain st).
Proof.
  destruct fuel as [| k]; [reflexivity |].
  change (visit (S k) (For pointer iterable body))
    with (visitFor (visit k) pointer iterable body).
  unfold visitFor, bind.
  pose proof (known_elements_state iterable st) as Hst.
  destruct (known_elements iterable st) as [[known | e |] st1]; simpl in Hst; subst st1;
    try reflexivity.
  destruct known as [elements |].
  - destruct elements as [| e r]; [reflexivity |].
    change (for_unroll (visit k) pointer body (e :: r))
      with (with_child_scope "for" ∅
              (bind (lift (name_of pointer)) (fun name =>
               bind (scope_assign name e SlotNone) (fun _ =>
               bind (visit_children (visit k) body) (fun parts =>
               bind (for_unroll (visit k) pointer body r) (fun rest =>
               ret (Py.join SEP parts :: rest))))))).
    match goal with
    | |- context [with_child_scope ?n ?ns ?m st] =>
        pose proof (with_child_scope_restores n ns m st) as Hrest;
        destruct (with_child_scope n ns m st) as [[lines | err |] st2]
    end; simpl in *; apply Hrest;
      (unfold visit_children; repeat (first [apply visit_extends_all | keep_step]);
       apply keeps_for_unroll; apply visit_extends_all).
  - unfold for_runtime.
    apply with_child_scope_restores.
    unfold visit_children. repeat (first [apply visit_extends_all | keep_step]).
Qed.

(** X4: inlining a call of a user function leaves the caller's scopes as it
    found them: parameters and everything the body assigns are bound in the
    scope of the call, which is dropped, also when the body raises. *)
Theorem call_restores_scope `{Collaborators} (fuel : nat) (name f : string)
        (params children args : list node) (i : slot) (st : state) :
  chain_get (scope_chain st) name = Some (Var (Function f params children) i) ->
  chain_slots (scope_chain (snd (visit fuel (Call (GlobalVar name) args) st)))
  = chain_slots (scope_chain st).
Proof.
  intros Hget. destruct fuel as [| k]; [reflexivity |].
  change (visit (S k) (Call (GlobalVar name) args))
    with (visitCall (visit k) (Call (GlobalVar name) args) (GlobalVar name) args).
  unfold visitCall. simpl base_node. simpl name_of.
  unfold bind, lift, ret, scope_get, gets. rewrite Hget.
  destruct (Nat.eqb (List.length params) (List.length args)); [| reflexivity].
  unfold read_local, ret.
  destruct (map_res name_of params) as [names | e]; [| reflexivity].
  match goal with
  | |- context [with_child_scope ?n ?ns ?m st] =>
      pose proof (with_child_scope_restores n ns m st) as Hrest;
      destruct (with_child_scope n ns m st) as [[text | err |] st2]
  end; simpl in *; apply Hrest; apply keeps_call_body; apply visit_extends_all.
Qed.

Lemma call_restores_scope_witness :
  let f := Function "f" [GlobalVar "gvar_a"]
             [Assign (GlobalVar "gvar_t") "=" (GlobalVar "gvar_a");
              Return (Some (GlobalVar "gvar_t"))] in
  let st := bind_local "gvar_f" f SlotNone (init 3) in
  chain_get (scope_chain st) "gvar_f" = Some (Var f SlotNone)
  /\ chain_slots (scope_chain (snd (visit (H := reference) 6
                                      (Call (GlobalVar "gvar_f") [Number "7"]) st)))
     = chain_slots (scope_chain st).
Proof.
  intros f st. split; [reflexivity |].
  exact (call_restores_scope (H := reference) 6 "gvar_f" "f" _ _ [Number "7"] SlotNone st
           eq_refl).
Defined.

(** X5: the first assignment to an unbound global moves the global counter
    past the index it hands out, and the counter stays past it through
    every later visit: no later first assignment can be given that index. *)
Theorem fresh_slot_not_reused `{Collaborators} (fuel fuel' : nat) (name op : string)
        (right later : node) (st : state) :
  chain_get (scope_chain st) name = None ->
  let st1 := snd (visit (S fuel) (Assign (GlobalVar name) op right) st) in
  (global_index st < global_index st1)%nat
  /\ (global_index st < global_index (snd (visit fuel' later st1)))%nat.
Proof.
  intros Hnone st1.
  assert (Hfirst : (global_index st < global_index st1)%nat).
  { unfold st1. rewrite (assign_global_first fuel st name op right Hnone).
    match goal with
    | |- context [assign_code ?v ?n ?i ?val ?p ?s] =>
        destruct (assign_code v n i val p s) as [r st2] eqn:Hrun;
        destruct (keeps_assign_code v (visit_extends_all fuel) n i val p s r st2 Hrun)
          as [_ Hg _ _ _]
    end.
    simpl in *. lia. }
  split; [exact Hfirst |].
  destruct (visit fuel' later st1) as [r st2] eqn:Hrun.
  destruct (visit_extends_all fuel' later st1 r st2 Hrun) as [_ Hg _ _ _].
  simpl. lia.
Qed.

Lemma fresh_slot_not_reused_witness :
  let st := init 3 in
  let st1 := snd (visit (H := reference) 3 (Assign (GlobalVar "gvar_x") "=" (Number "1")) st) in
  chain_get (scope_chain st) "gvar_x" = None
  /\ (global_index st < global_index st1)%nat
  /\ (global_index st
      < global_index (snd (visit (H := reference) 3
                             (Assign (GlobalVar "gvar_y") "=" (Number "2")) st1)))%nat.
Proof.
  intros st st1. split; [reflexivity |].
  exact (fresh_slot_not_reused (H := reference) 2 3 "gvar_x" "=" (Number "1")
           (Assign (GlobalVar "gvar_y") "=" (Number "2")) st eq_refl).
Defined.

(** ** flatten *)

Lemma flatten_app (a b : list nested) : flatten (a ++ b)%list = (flatten a ++ flatten b)%list.
Proof. unfold flatten. apply flat_map_app. Qed.

(** X6: the work-list loop of [flatten] terminates on every nested list,
    within one step per leaf and per list it contains, and yields exactly
    the leaves from left to right; empty inner lists yield nothing. *)
Theorem flatten_loop_leaves (l : list nested) (fuel : nat) :
  (list_sum (map weight l) < fuel)%nat ->
  flatten_loop fuel l = Some (flatten l).
Proof.
  revert l. induction fuel as [| k IH]; intros l Hfuel; [lia |].
  destruct l as [| [s | inner] r]; [reflexivity | |].
  - simpl in Hfuel. simpl flatten_loop. rewrite IH by lia. reflexivity.
  - simpl in Hfuel. simpl flatten_loop. rewrite IH.
    + rewrite flatten_app. reflexivity.
    + rewrite map_app, list_sum_app. lia.
Qed.

Lemma flatten_loop_leaves_witness :
  let l := [Nest [Leaf "UP"; Nest []; Nest [Leaf "DOWN"]]; Leaf "ANY"] in
  (list_sum (map weight l) < 7)%nat
  /\ flatten_loop 7 l = Some ["UP"; "DOWN"; "ANY"].
Proof.
  intros l. split; [vm_compute; lia |].
  exact (flatten_loop_leaves l 7 ltac:(vm_compute; lia)).
Defined.

(** ** Lowering that cannot finish *)

(** X7: a name bound, as a parameter, to the variable of the same name
    cannot be read: the read visits the argument, which is the same read
    again, and no amount of fuel ends it (Python stops with a recursion
    error).  This is what a call [f(a)] of a function with parameter [a]
    binds. *)
Theorem self_bound_parameter_loops `{Collaborators} (name : string) (st : state) :
  chain_get (scope_chain st) name = Some (Raw (GlobalVar name)) ->
  forall fuel, visit fuel (GlobalVar name) st = (OutOfFuel, st).
Proof.
  intros Hget fuel. induction fuel as [| k IH]; [reflexivity |].
  change (visit (S k) (GlobalVar name)) with (visitGlobalVar (visit k) name).
  unfold visitGlobalVar, bind, scope_get, gets. rewrite Hget. exact IH.
Qed.

Lemma self_bound_parameter_loops_witness :
  let st := push_scope "f" (bind_params ["gvar_a"] [GlobalVar "gvar_a"]) (init 3) in
  chain_get (scope_chain st) "gvar_a" = Some (Raw (GlobalVar "gvar_a"))
  /\ visit (H := reference) 1000 (GlobalVar "gvar_a") st = (OutOfFuel, st).
Proof.
  intros st. split; [reflexivity |].
  exact (self_bound_parameter_loops (H := reference) "gvar_a" st eq_refl 1000%nat).
Defined.

(** X8: there is no guard against recursion: a call of a function without
    parameters whose body starts by calling the function itself is inlined
    again and again, and no amount of fuel ends the lowering. *)
Theorem recursive_call_loops `{Collaborators} (name f : string) (rest : list node)
        (i : slot) (fuel : nat) :
  forall st,
    chain_get (scope_chain st) name
    = Some (Var (Function f [] (Call (GlobalVar name) [] :: rest)) i) ->
    fst (visit fuel (Call (GlobalVar name) []) st) = OutOfFuel.
Proof.
  induction fuel as [| k IH]; intros st Hget; [reflexivity |].
  change (visit (S k) (Call (GlobalVar name) []))
    with (visitCall (visit k) (Call (GlobalVar name) []) (GlobalVar name) []).
  unfold visitCall.
  change (name_of (base_node (Call (GlobalVar name) []))) with (Val name).
  unfold bind at 1. unfold lift at 1. unfold ret at 1.
  unfold bind at 1. unfold scope_get, gets. rewrite Hget.
  unfold bind at 1. unfold ret at 1.
  change (Nat.eqb (List.length (@nil node)) (List.length (@nil node))) with true.
  cbv iota. unfold bind at 1. unfold read_local, ret at 1.
  unfold bind at 1. change (lift (map_res name_of [])) with (@ret (list string) []).
  unfold ret at 1. unfold with_child_scope.
  change (call_body (visit k) "" (Call (GlobalVar name) [] :: rest))
    with (bind (try_return (visit k (Call (GlobalVar name) [])) (fun value => visit k value))
            (fun text => call_body (visit k) ("" ++ text) rest)).
  unfold bind, try_return.
  specialize (IH (push_scope (Py.drop 5 name) (bind_params [] []) st) Hget).
  destruct (visit k (Call (GlobalVar name) [])
              (push_scope (Py.drop 5 name) (bind_params [] []) st)) as [r st1].
  simpl in IH. subst r. reflexivity.
Qed.

Lemma recursive_call_loops_witness :
  let f := Function "f" [] [Call (GlobalVar "gvar_f") []] in
  let st := bind_local "gvar_f" f SlotNone (init 3) in
  chain_get (scope_chain st) "gvar_f" = Some (Var f SlotNone)
  /\ fst (visit (H := reference) 500 (Call (GlobalVar "gvar_f") []) st) = OutOfFuel.
Proof.
  intros f st. split; [reflexivity |].
  exact (recursive_call_loops (H := reference) "gvar_f" "f" [] SlotNone 500 st eq_refl).
Defined.

(** ** Reading an array element at compile time *)



(** ** base_node *)

(** X10: [base_node] climbs out of every attribute, call and item access:
    the node it returns is none of the three, and climbing again from it
    goes nowhere. *)
Theorem base_node_is_base (n : node) :
  match base_node n with
  | Attribute _ _ | Call _ _ | Item _ _ => False
  | _ => True
  end
  /\ base_node (base_node n) = base_node n.
Proof.
  induction n; simpl; auto.
Qed.

(** ** Folding is local *)

(** X11: a binary operation folds only when both operands are themselves
    [Number] nodes.  If either is anything else (a variable bound to a
    number included), the operands are lowered left to right and wrapped in
    the instruction of the operator; an operator without an instruction
    raises a type error, after both operands were lowered. *)
Theorem no_folding_through_operands `{Collaborators} (fuel : nat) (left right : node)
        (op l r : string) (st st1 st2 : state) :
  is_number left && is_number right = false ->
  visit fuel left st = (Ok l, st1) ->
  visit fuel right st1 = (Ok r, st2) ->
  visit (S fuel) (BinaryOp left op right) st
  = match instruction_of_op op with
    | Some name => (Ok (name ++ "(" ++ l ++ ", " ++ r ++ ")"), st2)
    | None => (Raise (Errors.Builtin TypeError), st2)
    end.
Proof.
  intros Hnum Hl Hr.
  change (visit (S fuel) (BinaryOp left op right))
    with (visitBinaryOp (visit fuel) left op right).
  unfold visitBinaryOp.
  assert (Hgen : (match instruction_of_op op with
                  | Some name =>
                      bind (visit fuel left) (fun l0 => bind (visit fuel right) (fun r0 =>
                        ret (name ++ "(" ++ l0 ++ ", " ++ r0 ++ ")")))
                  | None =>
                      bind (visit fuel left) (fun _ => bind (visit fuel right) (fun _ =>
                        py_raise TypeError))
                  end) st
                 = match instruction_of_op op with
                   | Some name => (Ok (name ++ "(" ++ l ++ ", " ++ r ++ ")"), st2)
                   | None => (Raise (Errors.Builtin TypeError), st2)
                   end).
  { destruct (instruction_of_op op); unfold bind; rewrite Hl, Hr; reflexivity. }
  destruct left; try exact Hgen.
  destruct right; try exact Hgen. discriminate.
Qed.

Lemma no_folding_through_operands_witness :
  let st := bind_local "gvar_x" (Number "2") (SlotInt 0) (set_global_index 1 (init 3)) in
  is_number (GlobalVar "gvar_x") && is_number (Number "1") = false
  /\ visit (H := reference) 2 (BinaryOp (GlobalVar "gvar_x") "+" (Number "1")) st
     = (Ok "Add(Value In Array(Global Variable(A), 0), 1)", st)
  /\ visit (H := reference) 2 (BinaryOp (GlobalVar "gvar_x") "<<" (Number "1")) st
     = (Raise (Errors.Builtin TypeError), st).
Proof.
  intros st. split; [reflexivity |]. split.
  - exact (no_folding_through_operands (H := reference) 1 (GlobalVar "gvar_x") (Number "1")
             "+" "Value In Array(Global Variable(A), 0)" "1" st st st
             eq_refl eq_refl eq_refl).
  - exact (no_folding_through_operands (H := reference) 1 (GlobalVar "gvar_x") (Number "1")
             "<<" "Value In Array(Global Variable(A), 0)" "1" st st st
             eq_refl eq_refl eq_refl).
Defined.

(** ** Compound assignment *)

Lemma bind_ok {A B} (m : M A) (k : A -> M B) st a st1 :
  m st = (Ok a, st1) -> bind m k st = k a st1.
Proof. intros Hm. unfold bind. now rewrite Hm. Qed.

Lemma read_bound_slot `{Collaborators} fuel name l op r i st :
  visit (S fuel) (GlobalVar name) (bind_local name (BinaryOp l op r) i st)
  = (Ok ("Value In Array(Global Variable(A), " ++ slot_str i ++ ")"),
     bind_local name (BinaryOp l op r) i st).
Proof.
  change (visit (S fuel) (GlobalVar name)) with (visitGlobalVar (visit fuel) name).
  unfold visitGlobalVar, scope_get, gets, bind.
  now rewrite chain_get_bind_local.
Qed.

Lemma compound_ops_cases op bin instr :
  In (op, bin, instr) compound_ops ->
  (forall l r, assigned_value l op r = BinaryOp l bin r)
  /\ instruction_of_op bin = Some instr.
Proof.
  unfold compound_ops. simpl.
  intros [Heq | [Heq | [Heq | [Heq | [Heq | [Heq | []]]]]]];
    inversion Heq; subst; split; reflexivity.
Qed.

(** X12: a compound assignment [x op= e] to a global variable stores the
    operation itself as the value of [x] and then lowers it, so the left
    operand is read back from the slot being written.  The name need not be
    defined: an undefined [x] draws a fresh slot and is read from it, with
    no name error. *)
Theorem compound_assign `{Collaborators} (fuel : nat) (name op bin instr r : string)
        (right : node) (st st2 : state) :
  In (op, bin, instr) compound_ops ->
  Py.startswith name "gvar_" = true ->
  let value := BinaryOp (GlobalVar name) bin right in
  let read i := "Value In Array(Global Variable(A), " ++ slot_str i ++ ")" in
  let store i := "Set Global Variable At Index(A, " ++ slot_str i ++ ", "
                 ++ (instr ++ "(" ++ read i ++ ", " ++ r ++ ")") ++ ")" in
  (forall v i,
      chain_get (scope_chain st) name = Some (Var v i) ->
      visit (S fuel) right (bind_local name value i st) = (Ok r, st2) ->
      visit (S (S (S fuel))) (Assign (GlobalVar name) op right) st = (Ok (store i), st2))
  /\ (chain_get (scope_chain st) name = None ->
      let i := SlotInt (Z.of_nat (global_index st)) in
      visit (S fuel) right
            (bind_local name value i (set_global_index (S (global_index st)) st)) = (Ok r, st2) ->
      visit (S (S (S fuel))) (Assign (GlobalVar name) op right) st = (Ok (store i), st2)).
Proof.
  intros Hop Hname value read store.
  destruct (compound_ops_cases op bin instr Hop) as [Hval Hinstr].
  assert (Hcode : forall i st1,
             visit (S fuel) right (bind_local name value i st1) = (Ok r, st2) ->
             assign_code (visit (S (S fuel))) name i value PlayerUnbound
                         (bind_local name value i st1) = (Ok (store i), st2)).
  { intros i st1 Hright. unfold assign_code. rewrite Hname.
    assert (Hv : visit (S (S fuel)) value (bind_local name value i st1)
                 = (Ok (instr ++ "(" ++ read i ++ ", " ++ r ++ ")"), st2)).
    { unfold value.
      change (visit (S (S fuel)) (BinaryOp (GlobalVar name) bin right))
        with (visitBinaryOp (visit (S fuel)) (GlobalVar name) bin right).
      unfold visitBinaryOp. rewrite Hinstr.
      rewrite (bind_ok _ _ _ _ _ (read_bound_slot fuel name (GlobalVar name) bin right i st1)).
      fold value. rewrite (bind_ok _ _ _ _ _ Hright). reflexivity. }
    rewrite (bind_ok _ _ _ _ _ Hv). reflexivity. }
  split.
  - intros v i Hget Hright.
    rewrite (assign_global_again (S (S fuel)) st name op right v i Hget).
    rewrite Hval. now apply Hcode.
  - intros Hget i Hright.
    rewrite (assign_global_first (S (S fuel)) st name op right Hget).
    rewrite Hval. now apply Hcode.
Qed.

Lemma compound_assign_witness :
  In ("+=", "+", "Add") compound_ops
  /\ Py.startswith "gvar_x" "gvar_" = true
  /\ chain_get (scope_chain (init 3)) "gvar_x" = None
  /\ visit (H := reference) 3 (Assign (GlobalVar "gvar_x") "+=" (Number "1")) (init 3)
     = (Ok "Set Global Variable At Index(A, 0, Add(Value In Array(Global Variable(A), 0), 1))",
        bind_local "gvar_x" (BinaryOp (GlobalVar "gvar_x") "+" (Number "1")) (SlotInt 0)
                   (set_global_index 1 (init 3))).
Proof.
  split; [left; reflexivity |]. split; [reflexivity |]. split; [reflexivity |].
  exact (proj2 (compound_assign (H := reference) 0 "gvar_x" "+=" "+" "Add" "1" (Number "1")
                  (init 3) _ (or_introl eq_refl) eq_refl) eq_refl eq_refl).
Defined.

(** ** resolve_skips *)

Lemma scan_markers_length k lines :
  List.length (fst (fst (scan_markers k lines))) = List.length lines.
Proof.
  revert k. induction lines as [| line r IH]; intros k; [reflexivity |].
  simpl. specialize (IH (k + 1)).
  destruct (scan_markers (k + 1) r) as [[r' skips] skip_to]. simpl in *.
  now rewrite IH.
Qed.

Lemma scan_markers_unmarked k lines :
  forallb unmarked lines = true -> scan_markers k lines = (lines, [], []).
Proof.
  revert k. induction lines as [| line r IH]; intros k Hall; [reflexivity |].
  simpl in Hall. apply andb_prop in Hall as [Hline Hr].
  unfold unmarked in Hline. apply andb_prop in Hline as [Hskip Hstart].
  apply negb_true_iff in Hskip, Hstart.
  simpl. rewrite (IH (k + 1) Hr), Hskip, Hstart. reflexivity.
Qed.

Lemma set_nth_length {A} (l : list A) j x :
  List.length (Py.set_nth l j x) = List.length l.
Proof.
  revert j. induction l as [| y r IH]; intros j; [reflexivity |].
  destruct j; simpl; [reflexivity | now rewrite IH].
Qed.

Lemma patch_skips_length pairs lines out :
  patch_skips lines pairs = Val out -> List.length out = List.length lines.
Proof.
  revert lines. induction pairs as [| [skip jump] r IH]; intros lines Hrun.
  - simpl in Hrun. now inversion Hrun.
  - simpl in Hrun.
    destruct (Py.getitem lines skip) as [template | e]; [| discriminate].
    destruct (Py.format1 template (Py.str_of_Z jump)) as [line | e]; [| discriminate].
    unfold Py.setitem in Hrun.
    destruct (Py.norm_index lines skip) as [j |]; [| discriminate].
    rewrite (IH _ Hrun). apply set_nth_length.
Qed.

Lemma set_curblock_same st : set_curblock (curblock st) st = st.
Proof. now destruct st. Qed.

(** X13: [resolve_skips] rewrites lines of the current block in place.
    Whether it returns or raises, the block has as many lines as before and
    nothing else of the transpiler changed; and a block in which no line
    carries a marker is left exactly as it was. *)
Theorem resolve_skips_in_place (st st' : state) (r : outcome unit) :
  resolve_skips st = (r, st') ->
  List.length (curblock st') = List.length (curblock st)
  /\ st' = set_curblock (curblock st') st
  /\ (forallb unmarked (curblock st) = true -> r = Ok tt /\ st' = st).
Proof.
  unfold resolve_skips, bind, gets, modify. intros Hrun.
  pose proof (scan_markers_length 0 (curblock st)) as Hlen.
  pose proof (scan_markers_unmarked 0 (curblock st)) as Hsame.
  destruct (scan_markers 0 (curblock st)) as [[lines' skips] skip_to].
  simpl in Hlen.
  destruct (patch_skips lines' (combine skips (rev skip_to))) as [patched | e] eqn:Hpatch.
  - simpl in Hrun. inversion Hrun; subst; clear Hrun.
    split; [| split].
    + simpl. rewrite (patch_skips_length _ _ _ Hpatch). exact Hlen.
    + reflexivity.
    + intros Hall. specialize (Hsame Hall). inversion Hsame; subst.
      simpl in Hpatch. inversion Hpatch; subst.
      split; [reflexivity |]. now destruct st.
  - simpl in Hrun. inversion Hrun; subst; clear Hrun.
    split; [| split].
    + exact Hlen.
    + reflexivity.
    + intros Hall. specialize (Hsame Hall). inversion Hsame; subst.
      simpl in Hpatch. discriminate.
Qed.

Lemma resolve_skips_in_place_witness :
  let st := set_curblock ["   Wait(1)"; "   Loop"] (init 3) in
  forallb unmarked (curblock st) = true /\ resolve_skips st = (Ok tt, st).
Proof.
  intros st. split; [reflexivity |].
  destruct (resolve_skips st) as [r st'] eqn:Hrun.
  destruct (resolve_skips_in_place st st' r Hrun) as (_ & _ & Hsame).
  destruct (Hsame eq_refl) as [Hr Hst]. now rewrite Hr, Hst.
Defined.

(** ** Unrolled loops *)

Lemma pop_push_bind name ns p e i st :
  pop_scope (bind_local p e i (push_scope name ns st)) = st.
Proof. now destruct st. Qed.






(** ** The emitted document *)

Lemma rstrip_app chars a b :
  Py.rstrip chars (a ++ b)
  = match Py.rstrip chars b with
    | EmptyString => Py.rstrip chars a
    | String c r => a ++ String c r
    end.
Proof.
  induction a as [| x a IH].
  - change (EmptyString ++ b) with b.
    destruct (Py.rstrip chars b); reflexivity.
  - change (String x a ++ b) with (String x (a ++ b)).
    change (Py.rstrip chars (String x (a ++ b)))
      with (match Py.rstrip chars (a ++ b) with
            | EmptyString => if Py.mem x chars then EmptyString else String x EmptyString
            | String c r => String x (String c r)
            end).
    rewrite IH.
    destruct (Py.rstrip chars b) as [| c r].
    + reflexivity.
    + destruct a; reflexivity.
Qed.

Lemma rstrip_idem chars s : Py.rstrip chars (Py.rstrip chars s) = Py.rstrip chars s.
Proof.
  induction s as [| x s IH]; [reflexivity |].
  change (Py.rstrip chars (String x s))
    with (match Py.rstrip chars s with
          | EmptyString => if Py.mem x chars then EmptyString else String x EmptyString
          | String c r => String x (String c r)
          end).
  destruct (Py.rstrip chars s) as [| c r] eqn:Hs.
  - destruct (Py.mem x chars) eqn:Hmem; [reflexivity |].
    simpl. now rewrite Hmem.
  - change (Py.rstrip chars (String x (String c r)))
      with (match Py.rstrip chars (String c r) with
            | EmptyString => if Py.mem x chars then EmptyString else String x EmptyString
            | String c' r' => String x (String c' r')
            end).
    now rewrite IH.
Qed.

(** X15: the document lowered from a [Script] always opens with the fixed
    rule line; what follows is empty or starts on a new line, and the
    document never ends in a line feed.  A script without rules is that line
    alone. *)
Theorem script_opens_with_preamble `{Collaborators} (fuel : nat) (rules : list node)
        (st st' : state) (out : string) :
  visit (S fuel) (Script rules) st = (Ok out, st') ->
  (exists rest, out = preamble ++ rest /\ (rest = "" \/ String.prefix LF rest = true))
  /\ Py.rstrip LF out = out
  /\ (rules = [] -> out = preamble).
Proof.
  change (visit (S fuel) (Script rules)) with (visitScript (visit fuel) (Script rules)).
  unfold visitScript, bind. intros Hrun.
  destruct (visit_children (visit fuel) (Script rules) st) as [[parts | e |] st1] eqn:Hparts;
    try discriminate.
  assert (Hout : out = Py.rstrip LF (preamble ++ (LF ++ Py.join "" parts)))
    by (unfold ret in Hrun; inversion Hrun; reflexivity).
  assert (Hst : st' = st1) by (unfold ret in Hrun; now inversion Hrun).
  clear Hrun. subst out st'.
  split; [| split].
  - rewrite rstrip_app.
    destruct (Py.rstrip LF (LF ++ Py.join "" parts)) as [| c r] eqn:Hrest.
    + exists "". split; [| now left].
      now rewrite append_nil_r.
    + exists (String c r). split; [reflexivity | right].
      change (LF ++ Py.join "" parts) with (String "010" (Py.join "" parts)) in Hrest.
      change (Py.rstrip LF (String "010" (Py.join "" parts)))
        with (match Py.rstrip LF (Py.join "" parts) with
              | EmptyString => EmptyString
              | String c' r' => String "010" (String c' r')
              end) in Hrest.
      destruct (Py.rstrip LF (Py.join "" parts)); [discriminate |].
      inversion Hrest; subst. reflexivity.
  - apply rstrip_idem.
  - intros Hnil. subst rules. unfold visit_children in Hparts. simpl in Hparts.
    unfold ret in Hparts. inversion Hparts; subst. reflexivity.
Qed.

Lemma script_opens_with_preamble_witness :
  visit (H := reference) 1 (Script []) (init 3) = (Ok preamble, init 3)
  /\ Py.rstrip LF preamble = preamble.
Proof.
  split; [reflexivity |].
  exact (proj1 (proj2 (script_opens_with_preamble (H := reference) 0 [] (init 3) (init 3)
                         preamble eq_refl))).
Defined.

(** ** Instructions *)

Lemma check_args_unconstrained `{Collaborators} (v : node -> M string) name index pairs st :
  forallb (fun p => unconstrained (fst p)) pairs = true ->
  check_args v name index pairs st = (Ok tt, st).
Proof.
  revert index. induction pairs as [| [a child] r IH]; intros index Hall; [reflexivity |].
  simpl in Hall. apply andb_prop in Hall as [Ha Hr].
  destruct a as [arg |].
  - rewrite check_args_cons. unfold unconstrained, fst in Ha. rewrite Ha. now apply IH.
  - apply (IH (S index) Hr).
Qed.

Lemma forallb_combine_fst {A B} (f : A -> bool) (l : list A) (l' : list B) :
  forallb f l = true -> forallb (fun p => f (fst p)) (combine l l') = true.
Proof.
  revert l'. induction l as [| x l IH]; intros l' Hall; [reflexivity |].
  simpl in Hall. apply andb_prop in Hall as [Hx Hl].
  destruct l' as [| y l']; [reflexivity |].
  simpl. now rewrite Hx, IH.
Qed.

(** X16: an instruction built with as many formal arguments as it has
    children, none of which constrains its value (no type, or a type whose
    values include [ANY]), lowers each child exactly once, left to right, and wraps
    the texts in the title-cased name; an exception of a child passes
    through.  No child is lowered for validation. *)
Theorem owid_unconstrained `{Collaborators} (fuel : nat) (name : string)
        (args : list (option argtype)) (children : list node) (st : state) :
  List.length args = List.length children ->
  forallb unconstrained args = true ->
  visit (S fuel) (OWID name args children) st
  = outcome_map (fun parts => Py.title name ++ "(" ++ Py.join ", " parts ++ ")")
                (traverse (visit fuel) children st).
Proof.
  intros Hlen Hall.
  change (visit (S fuel) (OWID name args children))
    with (visitOWID (visit fuel) (OWID name args children) name args).
  unfold visitOWID. simpl children_of.
  rewrite Hlen, Nat.eqb_refl.
  unfold bind at 1. unfold ret at 1.
  unfold bind at 1.
  rewrite (check_args_unconstrained (visit fuel) (Py.title name) 0 (combine args children) st
             (forallb_combine_fst unconstrained args children Hall)).
  unfold visit_children, bind. simpl children_of.
  destruct (traverse (visit fuel) children st) as [[parts | e |] st1]; reflexivity.
Qed.

Lemma owid_unconstrained_witness :
  let any := {| arg_name := "Player"; get_values := [Nest [Leaf "ANY"]] |} in
  forallb unconstrained [None; Some any] = true
  /\ visit (H := reference) 2 (OWID "set status" [None; Some any] [Number "1"; Constant "all"])
       (init 3)
     = (Ok "Set Status(1, All)", init 3).
Proof.
  intros any. split; [reflexivity |].
  exact (owid_unconstrained (H := reference) 1 "set status" [None; Some any]
           [Number "1"; Constant "all"] (init 3) eq_refl eq_refl).
Defined.

(** X17: an instruction whose number of children differs from its number
    of formal arguments is rejected before any child is lowered, with the
    transpiler untouched.  The report is the syntax error naming the
    expected types, unless a formal argument has no type: then building the
    report fails, and an [AttributeError] is raised in its place. *)
Theorem owid_arity_mismatch `{Collaborators} (fuel : nat) (name : string)
        (args : list (option argtype)) (children : list node) (st : state) :
  List.length args <> List.length children ->
  visit (S fuel) (OWID name args children) st
  = (match map_res (fun a => match a with
                             | Some arg => Val (arg_name arg)
                             | None => Exc AttributeError
                             end) args with
     | Val names =>
         Raise (Errors.SyntaxError
                  ("'" ++ Py.title name ++ "' expected " ++ Py.str_of_nat (List.length args)
                   ++ " arguments (" ++ Py.join ", " names ++ "), received "
                   ++ Py.str_of_nat (List.length children)))
     | Exc e => Raise (Errors.Builtin e)
     end, st)
  /\ (In None args ->
      visit (S fuel) (OWID name args children) st
      = (Raise (Errors.Builtin AttributeError), st)).
Proof.
  intros Hlen.
  assert (Hrun : visit (S fuel) (OWID name args children) st
                 = (match map_res (fun a => match a with
                                            | Some arg => Val (arg_name arg)
                                            | None => Exc AttributeError
                                            end) args with
                    | Val names =>
                        Raise (Errors.SyntaxError
                                 ("'" ++ Py.title name ++ "' expected "
                                  ++ Py.str_of_nat (List.length args)
                                  ++ " arguments (" ++ Py.join ", " names ++ "), received "
                                  ++ Py.str_of_nat (List.length children)))
                    | Exc e => Raise (Errors.Builtin e)
                    end, st)).
  { change (visit (S fuel) (OWID name args children))
      with (visitOWID (visit fuel) (OWID name args children) name args).
    unfold visitOWID. simpl children_of.
    apply Nat.eqb_neq in Hlen. rewrite Hlen.
    unfold bind at 1. unfold bind at 1.
    destruct (map_res _ args) as [names | e]; reflexivity. }
  split; [exact Hrun |].
  intros Hnone. rewrite Hrun.
  assert (Hmap : map_res (fun a => match a with
                                   | Some arg => Val (arg_name arg)
                                   | None => Exc AttributeError
                                   end) args = Exc AttributeError).
  { clear -Hnone. induction args as [| a r IH]; [destruct Hnone |].
    simpl. destruct a as [arg |]; [| reflexivity].
    destruct Hnone as [Heq | Hin]; [discriminate |].
    now rewrite (IH Hin). }
  now rewrite Hmap.
Qed.

Lemma owid_arity_mismatch_witness :
  let hero := {| arg_name := "Hero"; get_values := [Leaf "ANA"] |} in
  visit (H := reference) 1 (OWID "hero of" [Some hero] []) (init 3)
  = (Raise (Errors.SyntaxError "'Hero Of' expected 1 arguments (Hero), received 0"), init 3)
  /\ visit (H := reference) 1 (OWID "hero of" [None] []) (init 3)
     = (Raise (Errors.Builtin AttributeError), init 3).
Proof.
  intros hero. split.
  - exact (proj1 (owid_arity_mismatch (H := reference) 0 "hero of" [Some hero] [] (init 3)
                    ltac:(discriminate))).
  - exact (proj2 (owid_arity_mismatch (H := reference) 0 "hero of" [None] [] (init 3)
                    ltac:(discriminate)) (or_introl eq_refl)).
Defined.

(** ** Scopes *)

Lemma pop_push name ns st : pop_scope (push_scope name ns st) = st.
Proof. now destruct st. Qed.

(** X18: [Scope.assign] and [Scope.get].  After an assignment the name
    reads back as the variable just stored and every other name reads as
    before; a name the child scope does not bind reads as in the enclosing
    scopes; and what a child scope assigned is gone once the child is left,
    even where it shadowed an outer name. *)
Theorem scope_assign_get (name other child : string) (value : node) (i : slot)
        (ns : gmap string binding) (st : state) :
  (let* _ := scope_assign name value i in scope_get name) st
  = (Ok (Some (Var value i)), bind_local name value i st)
  /\ (other <> name ->
      (let* _ := scope_assign name value i in scope_get other) st
      = (Ok (chain_get (scope_chain st) other), bind_local name value i st))
  /\ (ns !! other = None ->
      with_child_scope child ns (scope_get other) st
      = (Ok (chain_get (scope_chain st) other), st))
  /\ (let* _ := with_child_scope child ns (scope_assign name value i) in scope_get name) st
     = (Ok (chain_get (scope_chain st) name), st).
Proof.
  split; [| split; [| split]].
  - unfold bind. rewrite scope_assign_run. unfold scope_get, gets.
    now rewrite chain_get_bind_local.
  - intros Hne. unfold bind. rewrite scope_assign_run. unfold scope_get, gets.
    f_equal. f_equal. unfold scope_chain, bind_local. simpl.
    now rewrite lookup_insert_ne.
  - intros Hnone. unfold with_child_scope, scope_get, gets.
    rewrite pop_push. f_equal. f_equal.
    unfold push_scope, scope_chain. simpl. now rewrite Hnone.
  - unfold bind, with_child_scope. rewrite scope_assign_run.
    rewrite pop_push_bind. reflexivity.
Qed.

Lemma scope_assign_get_witness :
  let st := bind_local "gvar_x" (Number "1") (SlotInt 0) (set_global_index 1 (init 3)) in
  (let* _ := with_child_scope "f" ∅ (scope_assign "gvar_x" (Number "2") SlotNone) in
   scope_get "gvar_x") st
  = (Ok (Some (Var (Number "1") (SlotInt 0))), st)
  /\ with_child_scope "f" ∅ (scope_get "gvar_x") st
     = (Ok (Some (Var (Number "1") (SlotInt 0))), st).
Proof.
  intros st. split.
  - exact (proj2 (proj2 (proj2 (scope_assign_get "gvar_x" "gvar_x" "f" (Number "2") SlotNone
                                  ∅ st)))).
  - exact (proj1 (proj2 (proj2 (scope_assign_get "gvar_y" "gvar_x" "f" (Number "2") SlotNone
                                  ∅ st))) eq_refl).
Defined.

(** ** Indentation across a returning call *)

(** X19: [visitBlock] raises the indentation level for its children and
    lowers it again after the last one, not when a child raises.  A call of
    a function whose body is a block starting with [return v] therefore ends
    as the lowering of [v] ends, with [v] lowered inside the scope of the
    call and one level deeper than the call itself, and the level is not
    lowered again: after the call it is the level the lowering of [v] left.
    That is one above the level before the call when lowering [v] does not
    change the level, and more when [v] is itself such a call. *)
Theorem returning_call_raises_indent `{Collaborators} (fuel : nat) (g fname : string)
        (params args rest : list node) (names : list string) (v : node)
        (i : slot) (st st2 : state) (r : outcome string) :
  let body := Function fname params [Block (Return (Some v) :: rest)] in
  let inner := set_indent_level (indent_level st + 1)
                 (push_scope (Py.drop 5 g) (bind_params names args) st) in
  chain_get (scope_chain st) g = Some (Var body i) ->
  List.length params = List.length args ->
  map_res name_of params = Val names ->
  visit (S (S fuel)) v inner = (r, st2) ->
  visit (S (S (S fuel))) (Call (GlobalVar g) args) st = (r, pop_scope st2)
  /\ indent_level (pop_scope st2) = indent_level st2
  /\ (indent_level st2 = indent_level inner ->
      indent_level (pop_scope st2) = indent_level st + 1).
Proof.
  intros body inner Hget Hlen Hnames Hv.
  assert (Hpop : indent_level (pop_scope st2) = indent_level st2).
  { unfold pop_scope. now destruct (parents st2). }
  split; [| split; [exact Hpop |]].
  - change (visit (S (S (S fuel))) (Call (GlobalVar g) args))
      with (visitCall (visit (S (S fuel))) (Call (GlobalVar g) args) (GlobalVar g) args).
    unfold visitCall. simpl base_node. simpl name_of. unfold lift at 1.
    unfold bind at 1. unfold ret at 1.
    unfold bind at 1. unfold scope_get, gets. rewrite Hget.
    unfold bind at 1. unfold ret at 1. unfold body at 1.
    rewrite Hlen, Nat.eqb_refl.
    unfold read_local. unfold bind at 1. unfold ret at 1.
    rewrite Hnames. unfold lift. unfold bind at 1. unfold ret at 1.
    unfold with_child_scope.
    assert (Hbody : call_body (visit (S (S fuel))) "" [Block (Return (Some v) :: rest)]
                      (push_scope (Py.drop 5 g) (bind_params names args) st)
                    = (r, st2)).
    { assert (Hblock : visit (S (S fuel)) (Block (Return (Some v) :: rest))
                         (push_scope (Py.drop 5 g) (bind_params names args) st)
                       = (Raise (Errors.ReturnError v), inner)) by reflexivity.
      unfold call_body. unfold bind at 1. unfold try_return.
      rewrite Hblock, Hv. destruct r; reflexivity. }
    rewrite Hbody. reflexivity.
  - intros Hsame. rewrite Hpop, Hsame. reflexivity.
Qed.

Lemma returning_call_raises_indent_witness :
  let one := Function "one" [] [Block [Return (Some (Number "1"))]] in
  let two := Function "two" [] [Block [Return (Some (Call (GlobalVar "gvar_one") []))]] in
  let st := bind_local "gvar_two" two SlotNone (bind_local "gvar_one" one SlotNone (init 3)) in
  chain_get (scope_chain st) "gvar_one" = Some (Var one SlotNone)
  /\ chain_get (scope_chain st) "gvar_two" = Some (Var two SlotNone)
  /\ visit (H := reference) 3 (Call (GlobalVar "gvar_one") []) st
     = (Ok "1", set_indent_level 1 st)
  /\ visit (H := reference) 6 (Call (GlobalVar "gvar_two") []) st
     = (Ok "1", set_indent_level 2 st)
  /\ tabs_of st = "" /\ tabs_of (set_indent_level 2 st) = "      ".
Proof.
  intros one two st.
  split; [reflexivity |]. split; [reflexivity |].
  split; [| split; [| split; reflexivity]].
  - exact (proj1 (returning_call_raises_indent (H := reference) 0 "gvar_one" "one"
                    [] [] [] [] (Number "1") SlotNone st _ (Ok "1")
                    eq_refl eq_refl eq_refl eq_refl)).
  - exact (proj1 (returning_call_raises_indent (H := reference) 3 "gvar_two" "two"
                    [] [] [] [] (Call (GlobalVar "gvar_one") []) SlotNone st _ (Ok "1")
                    eq_refl eq_refl eq_refl eq_refl)).
Defined.

(** ** The builtin range *)

Lemma range_from_seq start n :
  range_from start 1 n = map (fun k => start + Z.of_nat k) (seq 0 n).
Proof.
  revert start. induction n as [| n IH]; intros start; [reflexivity |].
  simpl range_from. rewrite IH. simpl seq. simpl map.
  f_equal; [lia |].
  rewrite <- seq_shift, map_map. apply map_ext. intros k. lia.
Qed.

(** X20: the builtin [range] with a start and a stop builds the array
    literal of the integers from the start up to, not including, the stop,
    as [Number] literals in increasing order; with the stop alone it starts
    at zero.  A stop that is not above the start gives the empty array. *)
Theorem range_literals `{Collaborators} (a b : node) (x y : Z) :
  number_int a = Val x -> number_int b = Val y ->
  let literal start k := Number (Py.str_of_Z (start + Z.of_nat k)) in
  Builtin.range [a; b] = Val (Array (map (literal x) (seq 0 (Z.to_nat (y - x)))))
  /\ Builtin.range [b] = Val (Array (map (literal 0) (seq 0 (Z.to_nat y))))
  /\ (y <= x -> Builtin.range [a; b] = Val (Array [])).
Proof.
  intros Ha Hb literal.
  assert (Htwo : Builtin.range [a; b]
                 = Val (Array (map (literal x) (seq 0 (Z.to_nat (y - x)))))).
  { unfold Builtin.range. simpl map_res. rewrite Ha, Hb. simpl py_range.
    unfold range_len. simpl (0 <? 1).
    replace ((y - x + 1 - 1) / 1) with (y - x) by (rewrite Z.div_1_r; lia).
    rewrite range_from_seq, map_map. reflexivity. }
  split; [exact Htwo | split].
  - unfold Builtin.range. simpl map_res. rewrite Hb. simpl py_range.
    unfold range_len. simpl (0 <? 1).
    replace ((y - 0 + 1 - 1) / 1) with y by (rewrite Z.div_1_r; lia).
    rewrite range_from_seq, map_map. reflexivity.
  - intros Hle. rewrite Htwo.
    replace (Z.to_nat (y - x)) with 0%nat by lia. reflexivity.
Qed.

Lemma range_literals_witness :
  Builtin.range (H := reference) [Number "2"; Number "5"]
  = Val (Array [Number "2"; Number "3"; Number "4"])
  /\ Builtin.range (H := reference) [Number "5"; Number "2"] = Val (Array []).
Proof.
  split.
  - exact (proj1 (range_literals (H := reference) (Number "2") (Number "5") 2 5
                    eq_refl eq_refl)).
  - exact (proj2 (proj2 (range_literals (H := reference) (Number "5") (Number "2") 5 2
                           eq_refl eq_refl)) ltac:(lia)).
Defined.

(** ** Arguments are passed by name *)

(** X21: a call binds each parameter to the argument node itself, and a
    read of a parameter lowers that node in the scope of the call.  An
    argument that names a variable of the caller is therefore captured by a
    parameter of the same name: in the call [f(e, x)] of a function with the
    parameters [x, y], a read of [y] lowers [e], whatever [x] is bound to in
    the caller. *)
Theorem argument_captured_by_parameter `{Collaborators} (fuel : nat) (fname x y : string)
        (e : node) (st : state) :
  x <> y ->
  let inner := push_scope fname (bind_params [x; y] [e; GlobalVar x]) st in
  visit (S (S fuel)) (GlobalVar y) inner = visit fuel e inner.
Proof.
  intros Hne inner.
  assert (Hy : chain_get (scope_chain inner) y = Some (Raw (GlobalVar x))).
  { unfold inner, push_scope, scope_chain, bind_params. simpl.
    now rewrite lookup_insert_eq. }
  assert (Hx : chain_get (scope_chain inner) x = Some (Raw e)).
  { unfold inner, push_scope, scope_chain, bind_params. simpl.
    rewrite lookup_insert_ne by congruence. now rewrite lookup_insert_eq. }
  change (visit (S (S fuel)) (GlobalVar y)) with (visitGlobalVar (visit (S fuel)) y).
  unfold visitGlobalVar, scope_get, gets, bind. rewrite Hy.
  change (visit (S fuel) (GlobalVar x)) with (visitGlobalVar (visit fuel) x).
  unfold visitGlobalVar, scope_get, gets, bind. rewrite Hx. reflexivity.
Qed.

Lemma argument_captured_by_parameter_witness :
  let st := bind_local "gvar_x" (Number "5") (SlotInt 0) (set_global_index 1 (init 3)) in
  let inner := push_scope "f" (bind_params ["gvar_x"; "gvar_y"]
                                 [Number "1"; GlobalVar "gvar_x"]) st in
  "gvar_x" <> "gvar_y"
  /\ visit (H := reference) 2 (GlobalVar "gvar_x") st
     = (Ok "Value In Array(Global Variable(A), 0)", st)
  /\ visit (H := reference) 3 (GlobalVar "gvar_y") inner = (Ok "1", inner).
Proof.
  intros st inner. split; [discriminate |]. split; [reflexivity |].
  exact (argument_captured_by_parameter (H := reference) 1 "f" "gvar_x" "gvar_y"
           (Number "1") st ltac:(discriminate)).
Defined.

(** ** Assignments that are refused *)

(** X22: what [visitAssign] refuses.  A target that is neither a variable
    nor an array element is reported as not implemented, by its class name,
    before anything is lowered.  An element target whose name is not bound
    raises [AttributeError], not the name error a read of that element
    raises, after the index was lowered. *)
Theorem assign_refusals `{Collaborators} (fuel : nat) (op : string) (right : node)
        (st : state) :
  (forall left,
      match left with
      | GlobalVar _ | PlayerVar _ _ | Item _ _ => False
      | _ => True
      end ->
      visit (S fuel) (Assign left op right) st
      = (Raise (Errors.NotImplementedError
                  ("Assign to '" ++ class_name left ++ "' not implemented")), st))
  /\ (forall name text k,
      chain_get (scope_chain st) name = None ->
      Py.int text = Val k ->
      visit (S (S fuel)) (Assign (Item (GlobalVar name) (Number text)) op right) st
      = (Raise (Errors.Builtin AttributeError), st)).
Proof.
  split.
  - intros left Hleft. destruct left; try reflexivity; destruct Hleft.
  - intros name text k Hget Hint.
    change (visit (S (S fuel)) (Assign (Item (GlobalVar name) (Number text)) op right))
      with (visitAssign (visit (S fuel)) (Item (GlobalVar name) (Number text)) op right).
    unfold visitAssign, bind, lift, name_of, ret, scope_get, gets.
    rewrite Hget.
    unfold try_except, assign_item, bind, lift.
    change (visit (S fuel) (Number text) st) with (Ok text, st).
    cbv beta iota. rewrite Hint. reflexivity.
Qed.

Lemma assign_refusals_witness :
  let st := bind_local "gvar_a" (Array [Number "1"]) (SlotInt 0) (set_global_index 1 (init 3)) in
  visit (H := reference) 1 (Assign (Number "1") "=" (Number "2")) st
  = (Raise (Errors.NotImplementedError "Assign to 'Number' not implemented"), st)
  /\ visit (H := reference) 2 (Assign (Item (GlobalVar "gvar_b") (Number "0")) "=" (Number "2")) st
     = (Raise (Errors.Builtin AttributeError), st).
Proof.
  intros st. split.
  - exact (proj1 (assign_refusals (H := reference) 0 "=" (Number "2") st) (Number "1") I).
  - exact (proj2 (assign_refusals (H := reference) 0 "=" (Number "2") st)
             "gvar_b" "0" 0 eq_refl eq_refl).
Defined.
